(** * The workbook formula scanner ([scripts/analyze-excel-formulas.py])

    A shallow embedding of the script.  The script is a single linear pass:
    it opens a workbook, walks every sheet and every cell, stores formula
    cells in [formulas] and the values to report in [values] (two Python
    dicts, insertion ordered), prints the report of each sheet and closes
    the workbook.

    What the script gets from [openpyxl] is modelled as data: a workbook is
    the list of its sheets, worksheets and chartsheets; a worksheet is the
    list of rows [iter_rows] yields, a chartsheet has a title and no cells;
    a cell carries the [column_letter], [row] and [value] the script reads.
    The file system is a [World]: what the k-th call of [load_workbook]
    returns.  Effects (printing, loading, closing, raising) live in a small
    state-and-exception monad.  [str.lower] is the interpreter's: the
    script is modelled over any such function ([StrLower]). *)

From Stdlib Require Import List String Ascii ZArith Bool Lia DecimalString.
From Stdlib Require DecimalPos DecimalZ.
Import ListNotations.
Open Scope string_scope.

(** ** Python values and strings *)

(** The values a cell can hold.  A text is held as the bytes of its UTF-8
    form: the tests the script makes on it (empty, first character [=], an
    ASCII keyword inside it) read the same on the bytes as on the
    characters.  [VOther] stands for the remaining literal types (float,
    datetime, ...) and carries what [str()] prints for it. *)
Inductive Value : Type :=
| VNone
| VStr (s : string)
| VInt (n : Z)
| VBool (b : bool)
| VOther (shown : string).

Definition nl : string := String (ascii_of_nat 10) EmptyString.

(** [s * n] *)
Fixpoint str_mul (s : string) (n : nat) : string :=
  match n with
  | O => EmptyString
  | S n' => s ++ str_mul s n'
  end.

(** [str(n)] for an int. *)
Definition str_of_int (n : Z) : string := NilZero.string_of_int (Z.to_int n).

(** What an f-string substitutes for [{v}]. *)
Definition py_str (v : Value) : string :=
  match v with
  | VNone => "None"
  | VStr s => s
  | VInt n => str_of_int n
  | VBool true => "True"
  | VBool false => "False"
  | VOther shown => shown
  end.

(** [s.startswith(p)] *)
Definition startswith (s p : string) : bool := String.prefix p s.

Definition lower_ascii (c : ascii) : ascii :=
  let n := nat_of_ascii c in
  if (65 <=? n)%nat && (n <=? 90)%nat then ascii_of_nat (n + 32) else c.

(** [s.lower()].  Python lowers by the Unicode tables (the Kelvin sign
    lowers to [k], a capital sigma by its place in the word); the script
    only calls it, so it is a parameter of the model.  All that is used of
    it is that the empty text stays empty. *)
Class StrLower : Type := {
  lower : string -> string;
  lower_empty : lower EmptyString = EmptyString
}.

(** What [s.lower()] gives on ASCII text; other bytes are left as they
    are.  It is the instance the examples are run with. *)
Fixpoint ascii_lower (s : string) : string :=
  match s with
  | EmptyString => EmptyString
  | String c t => String (lower_ascii c) (ascii_lower t)
  end.

Definition ascii_text : StrLower :=
  {| lower := ascii_lower; lower_empty := eq_refl |}.

(** [sub in s] on strings. *)
Fixpoint str_in (sub s : string) : bool :=
  String.prefix sub s ||
  match s with
  | EmptyString => false
  | String _ t => str_in sub t
  end.

(** ** Python dicts with string keys

    Insertion ordered: assigning to a key that is present replaces the value
    in place, assigning to a new key appends. *)
Definition dict (V : Type) : Type := list (string * V).

Fixpoint dict_set {V : Type} (k : string) (v : V) (d : dict V) : dict V :=
  match d with
  | [] => [(k, v)]
  | (k', v') :: d' =>
      if String.eqb k k' then (k', v) :: d' else (k', v') :: dict_set k v d'
  end.

Fixpoint dict_get {V : Type} (k : string) (d : dict V) : option V :=
  match d with
  | [] => None
  | (k', v') :: d' => if String.eqb k k' then Some v' else dict_get k d'
  end.

(** [k in d] *)
Definition dict_in {V : Type} (k : string) (d : dict V) : bool :=
  match dict_get k d with Some _ => true | None => false end.

Definition keys {V : Type} (d : dict V) : list string := map fst d.

(** ** Workbooks as the script sees them *)

Record Cell : Type := mkCell {
  column_letter : string;
  row : Z;
  value : Value
}.

Record Sheet : Type := mkSheet {
  title : string;
  iter_rows : list (list Cell)
}.

(** A sheet of a workbook is a worksheet, with cells, or a chartsheet,
    which has a title and nothing the script can read. *)
Inductive AnySheet : Type :=
| Worksheet (sh : Sheet)
| Chartsheet (name : string).

Definition sheet_title (s : AnySheet) : string :=
  match s with
  | Worksheet sh => title sh
  | Chartsheet name => name
  end.

Definition Workbook : Type := list AnySheet.

(** [wb.sheetnames]: the titles of all the sheets, in workbook order. *)
Definition sheetnames (wb : Workbook) : list string := map sheet_title wb.

(** [wb.worksheets] and the titles of [wb.chartsheets]. *)
Fixpoint worksheets (wb : Workbook) : list Sheet :=
  match wb with
  | [] => []
  | Worksheet sh :: wb' => sh :: worksheets wb'
  | Chartsheet _ :: wb' => worksheets wb'
  end.

Fixpoint chartsheets (wb : Workbook) : list string :=
  match wb with
  | [] => []
  | Worksheet _ :: wb' => chartsheets wb'
  | Chartsheet name :: wb' => name :: chartsheets wb'
  end.

(** [f"{cell.column_letter}{cell.row}"] *)
Definition cell_addr (c : Cell) : string := column_letter c ++ str_of_int (row c).

Definition cells (sh : Sheet) : list Cell := List.concat (iter_rows sh).

(** [sheet[addr].value]: the value of the cell at that coordinate, [None]
    for a cell the sheet does not hold. *)
Definition value_at (sh : Sheet) (addr : string) : Value :=
  match find (fun c => String.eqb (cell_addr c) addr) (cells sh) with
  | Some c => value c
  | None => VNone
  end.

(** ** The world and the effects *)

(** [load_workbook w k data_only]: what the k-th call of
    [openpyxl.load_workbook(file_path, data_only=...)] returns, [None] when
    the file cannot be opened or read at that moment. *)
Record World : Type := mkWorld {
  load_workbook : nat -> bool -> option Workbook
}.

Inductive Exn : Type :=
| SourceUnavailable
| KeyError (k : string)
| AttributeError
| TypeError.

(** What one call of [print] wrote.  The first print of the script writes a
    list of names through [repr], which is kept as the list. *)
Inductive Printed : Type :=
| PSheets (names : list string)
| PText (s : string).

(** A workbook object: the handle it holds and its content. *)
Definition Handle : Type := nat.

Record State : Type := mkState {
  stdout : list Printed;
  loads : nat;
  acquired : list Handle;
  closed : list Handle
}.

Definition init_state : State := mkState [] 0 [] [].

Inductive Outcome (A : Type) : Type :=
| Ok (a : A)
| Raise (e : Exn).
Arguments Ok {A} a.
Arguments Raise {A} e.

Definition M (A : Type) : Type := State -> Outcome A * State.

Definition ret {A : Type} (a : A) : M A := fun st => (Ok a, st).

Definition bind {A B : Type} (m : M A) (f : A -> M B) : M B :=
  fun st =>
    match m st with
    | (Ok a, st') => f a st'
    | (Raise e, st') => (Raise e, st')
    end.

Definition raise {A : Type} (e : Exn) : M A := fun st => (Raise e, st).

Declare Scope py_scope.
Delimit Scope py_scope with py.
Notation "x <- m ;; k" := (bind m (fun x => k))
  (at level 61, m at next level, right associativity) : py_scope.
Notation "m ;;; k" := (bind m (fun _ => k))
  (at level 61, right associativity) : py_scope.
Open Scope py_scope.

(** The state after some more output. *)
Definition emit (ls : list Printed) (st : State) : State :=
  mkState (stdout st ++ ls) (loads st) (acquired st) (closed st).

Definition print (s : string) : M unit :=
  fun st => (Ok tt, emit [PText s] st).

Definition print_sheets (names : list string) : M unit :=
  fun st => (Ok tt, emit [PSheets names] st).

(** [openpyxl.load_workbook(file_path, data_only=...)] *)
Definition load (w : World) (data_only : bool) : M (Handle * Workbook) :=
  fun st =>
    let k := loads st in
    match load_workbook w k data_only with
    | Some wb =>
        (Ok (k, wb), mkState (stdout st) (S k) (acquired st ++ [k]) (closed st))
    | None =>
        (Raise SourceUnavailable, mkState (stdout st) (S k) (acquired st) (closed st))
    end.

(** [wb.close()] *)
Definition close (h : Handle) : M unit :=
  fun st => (Ok tt, mkState (stdout st) (loads st) (acquired st) (closed st ++ [h])).

(** The worksheet [wb[name]] designates: the first one of that title. *)
Definition find_sheet (name : string) (wb : Workbook) : option Sheet :=
  find (fun sh => String.eqb (title sh) name) (worksheets wb).

(** The first chartsheet of that title. *)
Definition find_chart (name : string) (wb : Workbook) : option string :=
  find (fun c => String.eqb c name) (chartsheets wb).

(** The sheet [wb[name]] designates: the first of that title among the
    worksheets followed by the chartsheets. *)
Definition lookup_sheet (name : string) (wb : Workbook) : option AnySheet :=
  find (fun s => String.eqb (sheet_title s) name)
       (map Worksheet (worksheets wb) ++ map Chartsheet (chartsheets wb)).

(** [wb[name]] *)
Definition wb_getitem (wb : Workbook) (name : string) : M AnySheet :=
  match lookup_sheet name wb with
  | Some s => ret s
  | None => raise (KeyError name)
  end.

(** [sheet.iter_rows()]: a chartsheet has no such method. *)
Definition sheet_iter_rows (s : AnySheet) : M (list (list Cell)) :=
  match s with
  | Worksheet sh => ret (iter_rows sh)
  | Chartsheet _ => raise AttributeError
  end.

(** [sheet[addr].value]: a chartsheet cannot be indexed. *)
Definition sheet_value_at (s : AnySheet) (addr : string) : M Value :=
  match s with
  | Worksheet sh => ret (value_at sh addr)
  | Chartsheet _ => raise TypeError
  end.

(** [for x in l: body], the loop carrying what the body updates. *)
Fixpoint for_each {A B : Type} (l : list B) (body : B -> A -> M A) (a : A) : M A :=
  match l with
  | [] => ret a
  | x :: l' => a' <- body x a ;; for_each l' body a'
  end.

(** ** The script *)

Definition keywords : list string :=
  ["tan"; "diameter"; "id"; "wall"; "wt"; "circ"; "area"; "grid"; "hour";
   "segment"; "clock"; "shell"; "dome"; "paut"; "pec"; "tofd"; "length";
   "axis"; "access"; "scan"; "analysis"; "report"; "total"].

(** [isinstance(v, str) and v.startswith('=')] *)
Definition is_formula (v : Value) : bool :=
  match v with
  | VStr s => startswith s "="
  | _ => false
  end.

(** [v not in ['', None]] *)
Definition not_in_empty_or_None (v : Value) : bool :=
  match v with
  | VNone => false
  | VStr EmptyString => false
  | _ => true
  end.

(** [v is not None] *)
Definition is_not_None (v : Value) : bool :=
  match v with
  | VNone => false
  | _ => true
  end.

(** [isinstance(val, str) and any(keyword in val.lower() for keyword in [...])] *)
Definition is_keyword_text {L : StrLower} (val : Value) : bool :=
  match val with
  | VStr s => existsb (fun keyword => str_in keyword (lower s)) keywords
  | _ => false
  end.

(** The two dicts of a sheet: [formulas] and [values]. *)
Definition Dicts : Type := (dict Value * dict Value)%type.

(** The body of [for cell in row]. *)
Definition scan_cell (w : World) (sheet_name : string) (cell : Cell) (d : Dicts) : M Dicts :=
  let '(formulas, values) := d in
  if is_not_None (value cell) then
    let addr := cell_addr cell in
    if is_formula (value cell) then
      let formulas := dict_set addr (value cell) formulas in
      wb_data <- load w true ;;
      sheet_data <- wb_getitem (snd wb_data) sheet_name ;;
      calculated_value <- sheet_value_at sheet_data addr ;;
      ret (formulas, dict_set addr calculated_value values)
    else if not_in_empty_or_None (value cell) then
      ret (formulas, dict_set addr (value cell) values)
    else ret (formulas, values)
  else ret (formulas, values).

(** [for row in sheet.iter_rows(): for cell in row: ...] *)
Definition scan_rows (w : World) (sheet_name : string) (rows : list (list Cell)) (d : Dicts) : M Dicts :=
  for_each rows (fun row d => for_each row (scan_cell w sheet_name) d) d.

(** The loop printing the important input cells. *)
Definition print_key_cells {L : StrLower} (values : dict Value) : M unit :=
  for_each values
    (fun '(addr, val) _ =>
       if is_keyword_text val then print ("  " ++ addr ++ ": " ++ py_str val)
       else ret tt) tt.

(** The loop printing the formulas. *)
Definition print_formulas (formulas values : dict Value) : M unit :=
  for_each formulas
    (fun '(addr, formula) _ =>
       print ("  " ++ addr ++ ": " ++ py_str formula) ;;;
       if dict_in addr values then
         match dict_get addr values with
         | Some v => print ("       -> Value: " ++ py_str v)
         | None => raise (KeyError addr)
         end
       else ret tt) tt.

(** The body of [for sheet_name in wb.sheetnames]. *)
Definition analyze_sheet {L : StrLower} (w : World) (wb : Workbook)
  (sheet_name : string) : M unit :=
  sheet <- wb_getitem wb sheet_name ;;
  print ("SHEET: " ++ sheet_name) ;;;
  print (str_mul "-" 30) ;;;
  rows <- sheet_iter_rows sheet ;;
  d <- scan_rows w sheet_name rows ([], []) ;;
  print (nl ++ "Key Input/Output cells:") ;;;
  print_key_cells (snd d) ;;;
  print (nl ++ "Key Formulas:") ;;;
  print_formulas (fst d) (snd d) ;;;
  print (nl ++ str_mul "=" 50 ++ nl).

Definition script {L : StrLower} (w : World) : M unit :=
  wb <- load w false ;;
  print_sheets (sheetnames (snd wb)) ;;;
  print (nl ++ str_mul "=" 50 ++ nl) ;;;
  for_each (sheetnames (snd wb)) (fun sheet_name _ => analyze_sheet w (snd wb) sheet_name) tt ;;;
  close (fst wb).

Definition run {L : StrLower} (w : World) : Outcome unit * State :=
  script w init_state.

(** ** The report, read off the dicts *)

(** The keyword-matched set of a sheet: the items of [values] the first
    printing loop lets through. *)
Definition keyword_matched {L : StrLower} (values : dict Value) : dict Value :=
  filter (fun item => is_keyword_text (snd item)) values.

Definition key_line (item : string * Value) : Printed :=
  PText ("  " ++ fst item ++ ": " ++ py_str (snd item)).

Definition value_line (v : Value) : Printed :=
  PText ("       -> Value: " ++ py_str v).

(** What the second printing loop writes for one formula. *)
Definition formula_entry (values : dict Value) (item : string * Value) : list Printed :=
  key_line item ::
  match dict_get (fst item) values with
  | Some v => [value_line v]
  | None => []
  end.

Definition formula_lines (formulas values : dict Value) : list Printed :=
  flat_map (formula_entry values) formulas.

(** The addresses that appear in an entry of the report of a sheet. *)
Definition report_addrs {L : StrLower} (d : Dicts) : list string :=
  keys (keyword_matched (snd d)) ++ keys (fst d).

Definition separator : Printed := PText (nl ++ str_mul "=" 50 ++ nl).

(** The section of the report of one sheet, given its two dicts. *)
Definition section_lines {L : StrLower} (sheet_name : string) (d : Dicts) :
  list Printed :=
  [PText ("SHEET: " ++ sheet_name); PText (str_mul "-" 30);
   PText (nl ++ "Key Input/Output cells:")]
  ++ map key_line (keyword_matched (snd d))
  ++ [PText (nl ++ "Key Formulas:")]
  ++ formula_lines (fst d) (snd d)
  ++ [separator].

(** ** Cells and worlds to talk about *)

(** Content that is neither [None] nor the empty string. *)
Definition non_empty (v : Value) : Prop := not_in_empty_or_None v = true.

(** The addresses of a sheet, in the order the cells are met. *)
Definition addrs (cs : list Cell) : list string := map cell_addr cs.

(** The file is readable and unmodified for the whole run: every load of
    the formula view gives [wbf], every load of the values-only view gives
    [wbd]. *)
Definition stable (w : World) (wbf wbd : Workbook) : Prop :=
  forall k, load_workbook w k false = Some wbf /\ load_workbook w k true = Some wbd.

(** A file that never changes. *)
Definition steady_world (wbf wbd : Workbook) : World :=
  mkWorld (fun _ data_only => Some (if data_only then wbd else wbf)).

(** A file that is readable for the first [n] loads and gone afterwards. *)
Definition vanishing_world (n : nat) (wbf wbd : Workbook) : World :=
  mkWorld (fun k data_only =>
             if (k <? n)%nat then Some (if data_only then wbd else wbf) else None).

Module Samples.

(** A label, a number, a formula over a keyword-named function, an empty
    string and an absent cell. *)
Definition label_cell : Cell := mkCell "A" 1 (VStr "Tank Diameter").
Definition number_cell : Cell := mkCell "B" 1 (VInt 12).
Definition tan_cell : Cell := mkCell "C" 1 (VStr "=TAN(B1)").
Definition blank_cell : Cell := mkCell "D" 1 (VStr EmptyString).
Definition absent_cell : Cell := mkCell "E" 1 VNone.
Definition pending_cell : Cell := mkCell "A" 2 (VStr "=B1*2").

Definition sheet1 : Sheet :=
  mkSheet "Sheet1"
    [[label_cell; number_cell; tan_cell; blank_cell; absent_cell];
     [pending_cell]].

(** The values-only view of [sheet1]: [C1] was computed, [A2] was not. *)
Definition sheet1_data : Sheet :=
  mkSheet "Sheet1"
    [[mkCell "A" 1 (VStr "Tank Diameter"); mkCell "B" 1 (VInt 12);
      mkCell "C" 1 (VInt 24); mkCell "D" 1 (VStr EmptyString);
      mkCell "E" 1 VNone];
     [mkCell "A" 2 VNone]].

Definition notes : Sheet :=
  mkSheet "Notes" [[mkCell "A" 1 (VStr "Total length")]].

Definition book : Workbook := [Worksheet notes; Worksheet sheet1].
Definition book_data : Workbook := [Worksheet notes; Worksheet sheet1_data].

(** The same workbook with a chartsheet between the two worksheets. *)
Definition charted_book : Workbook :=
  [Worksheet notes; Chartsheet "Chart1"; Worksheet sheet1].
Definition charted_book_data : Workbook :=
  [Worksheet notes; Chartsheet "Chart1"; Worksheet sheet1_data].

Definition readable : World := steady_world book book_data.
Definition missing : World := vanishing_world 0 book book_data.
Definition lost_midway : World := vanishing_world 1 book book_data.
Definition charted : World := steady_world charted_book charted_book_data.

End Samples.

(** [st'] is [st] after some steps that close nothing: output and acquired
    handles only grow. *)
Definition extends (st st' : State) : Prop :=
  (exists out, stdout st' = (stdout st ++ out)%list) /\
  closed st' = closed st /\
  (exists hs, acquired st' = (acquired st ++ hs)%list).

(** [sec] is the section a completed scan of the sheet [wb[sheet_name]]
    prints. *)
Definition section_of {L : StrLower} (w : World) (wb : Workbook)
  (sheet_name : string) (sec : list Printed) : Prop :=
  exists sh d st st',
    find_sheet sheet_name wb = Some sh /\
    scan_rows w sheet_name (iter_rows sh) ([], []) st = (Ok d, st') /\
    sec = section_lines sheet_name d.

(** ** What one cell does to the dicts *)

Inductive CellClass : Type :=
| FormulaCell
| LiteralCell.

(** The three ways through the body of the cell loop that do not raise:
    the formula branch (one load of the values-only view), the [elif]
    branch, and falling through both.  The index tells which branch ran,
    [None] when the cell was skipped. *)
Inductive cell_step (w : World) (sheet_name : string) (c : Cell)
  (F V : dict Value) (st : State) : option CellClass -> Dicts -> State -> Prop :=
| step_formula wbd sd :
    is_formula (value c) = true ->
    load_workbook w (loads st) true = Some wbd ->
    find_sheet sheet_name wbd = Some sd ->
    cell_step w sheet_name c F V st (Some FormulaCell)
      (dict_set (cell_addr c) (value c) F,
       dict_set (cell_addr c) (value_at sd (cell_addr c)) V)
      (mkState (stdout st) (S (loads st)) (acquired st ++ [loads st]) (closed st))
| step_literal :
    is_formula (value c) = false ->
    not_in_empty_or_None (value c) = true ->
    cell_step w sheet_name c F V st (Some LiteralCell)
      (F, dict_set (cell_addr c) (value c) V) st
| step_skip :
    not_in_empty_or_None (value c) = false ->
    cell_step w sheet_name c F V st None (F, V) st.

(** [l] occurs in [big] as a block of consecutive prints. *)
Definition infix {A : Type} (l big : list A) : Prop :=
  exists pre post, big = (pre ++ l ++ post)%list.

(** ** Vocabulary for the properties of the whole run *)

(** The cells the formula branch takes, and those either branch stores. *)
Definition formula_cells (cs : list Cell) : list Cell :=
  filter (fun c => is_formula (value c)) cs.

Definition stored_cells (cs : list Cell) : list Cell :=
  filter (fun c => not_in_empty_or_None (value c)) cs.

(** What [values] receives for a stored cell, given the sheet of the
    values-only view. *)
Definition recorded (sd : Sheet) (c : Cell) : Value :=
  if is_formula (value c) then value_at sd (cell_addr c) else value c.

(** The number of formula cells the sheet loop meets: for each sheet name,
    those of the sheet the name designates. *)
Definition sheet_formula_count (wb : Workbook) (name : string) : nat :=
  match find_sheet name wb with
  | Some sh => List.length (formula_cells (cells sh))
  | None => 0
  end.

Definition formula_count (wb : Workbook) : nat :=
  list_sum (map (sheet_formula_count wb) (sheetnames wb)).

(** Column letters as [openpyxl] writes them: capital letters only. *)
Definition is_upper (c : ascii) : bool :=
  let n := nat_of_ascii c in (65 <=? n)%nat && (n <=? 90)%nat.

Fixpoint column_ok (s : string) : bool :=
  match s with
  | EmptyString => true
  | String c t => is_upper c && column_ok t
  end.

(** The position of a cell in the grid. *)
Definition position (c : Cell) : string * Z := (column_letter c, row c).

(** The report as a function of the two views of the file: for each sheet,
    the section of its formula cells and stored cells, the values of the
    formula cells taken from the sheet of the same name in the values-only
    view. *)
Definition sheet_dicts (sd : Sheet) (sh : Sheet) : Dicts :=
  (map (fun c => (cell_addr c, value c)) (formula_cells (cells sh)),
   map (fun c => (cell_addr c, recorded sd c)) (stored_cells (cells sh))).

Definition sheet_report {L : StrLower} (wbd : Workbook) (sh : Sheet) :
  list Printed :=
  match find_sheet (title sh) wbd with
  | Some sd => section_lines (title sh) (sheet_dicts sd sh)
  | None => []
  end.

Definition report {L : StrLower} (wbf wbd : Workbook) : list Printed :=
  PSheets (sheetnames wbf) :: separator
  :: flat_map (sheet_report wbd) (worksheets wbf).

(** * Properties *)

(** ** Dicts *)

Section DictFacts.

Context {V : Type}.
Implicit Types (d : dict V) (k a : string) (v : V).

Lemma dict_get_set_same k v d : dict_get k (dict_set k v d) = Some v.
Proof.
  induction d as [|[k' v'] d IH]; simpl.
  - now rewrite String.eqb_refl.
  - destruct (String.eqb k k') eqn:E; simpl; rewrite E; auto.
Qed.

Lemma dict_get_set_other k a v d :
  k <> a -> dict_get a (dict_set k v d) = dict_get a d.
Proof.
  intros Hne. induction d as [|[k' v'] d IH]; simpl.
  - destruct (String.eqb_spec a k); congruence.
  - destruct (String.eqb_spec k k') as [->|Hk]; simpl.
    + destruct (String.eqb_spec a k'); congruence.
    + now rewrite IH.
Qed.

Lemma keys_set k v d a :
  In a (keys (dict_set k v d)) <-> a = k \/ In a (keys d).
Proof.
  induction d as [|[k' v'] d IH]; simpl.
  - intuition.
  - destruct (String.eqb_spec k k') as [->|Hk]; simpl.
    + intuition.
    + rewrite IH. intuition.
Qed.

Lemma keys_set_new k v d :
  ~ In k (keys d) -> keys (dict_set k v d) = (keys d ++ [k])%list.
Proof.
  induction d as [|[k' v'] d IH]; simpl; intros Hn; auto.
  destruct (String.eqb_spec k k') as [->|Hk]; simpl.
  - exfalso; auto.
  - f_equal. apply IH. intuition.
Qed.

Lemma dict_get_In k v d : dict_get k d = Some v -> In (k, v) d.
Proof.
  induction d as [|[k' v'] d IH]; simpl; [discriminate|].
  destruct (String.eqb_spec k k') as [->|Hk]; intros H.
  - injection H as ->. now left.
  - right; auto.
Qed.

Lemma dict_get_keys k d : In k (keys d) <-> exists v, dict_get k d = Some v.
Proof.
  induction d as [|[k' v'] d IH]; simpl.
  - split; [tauto | intros [v H]; discriminate].
  - destruct (String.eqb_spec k k') as [->|Hk].
    + split; eauto.
    + rewrite <- IH. split; [intros [H|H]; congruence || auto | auto].
Qed.

Lemma dict_get_None k d : ~ In k (keys d) <-> dict_get k d = None.
Proof.
  rewrite dict_get_keys. destruct (dict_get k d).
  - split; [intros H; exfalso; eauto | discriminate].
  - split; auto. intros _ [v H]. discriminate.
Qed.

Lemma dict_in_keys k d : dict_in k d = true <-> In k (keys d).
Proof.
  unfold dict_in. rewrite dict_get_keys. destruct (dict_get k d).
  - split; eauto.
  - split; [discriminate | intros [v H]; discriminate].
Qed.

End DictFacts.

(** ** The monad *)

Section MonadFacts.

Context {A B : Type}.

Lemma bind_Ok (m : M A) (f : A -> M B) st b st' :
  bind m f st = (Ok b, st') ->
  exists a st1, m st = (Ok a, st1) /\ f a st1 = (Ok b, st').
Proof.
  unfold bind. destruct (m st) as [[a|e] st1]; intros H; [eauto | discriminate].
Qed.

Lemma bind_Ok_intro (m : M A) (f : A -> M B) st a st1 :
  m st = (Ok a, st1) -> bind m f st = f a st1.
Proof. unfold bind. now intros ->. Qed.

Lemma bind_Raise_intro (m : M A) (f : A -> M B) st e st1 :
  m st = (Raise e, st1) -> bind m f st = (Raise e, st1).
Proof. unfold bind. now intros ->. Qed.

Lemma for_each_app (l1 l2 : list B) (body : B -> A -> M A) a st :
  for_each (l1 ++ l2) body a st =
  bind (for_each l1 body a) (for_each l2 body) st.
Proof.
  revert a st. induction l1 as [|x l1 IH]; intros a st; simpl.
  - reflexivity.
  - unfold bind. destruct (body x a st) as [[a'|e] st1]; [|reflexivity].
    rewrite IH. reflexivity.
Qed.

End MonadFacts.

Lemma emit_nil st : emit [] st = st.
Proof. destruct st; unfold emit; simpl. now rewrite app_nil_r. Qed.

Lemma emit_emit l1 l2 st : emit l2 (emit l1 st) = emit (l1 ++ l2) st.
Proof. unfold emit; simpl. now rewrite app_assoc. Qed.

(** ** Values *)

Lemma is_formula_non_empty v : is_formula v = true -> non_empty v.
Proof.
  destruct v as [|s| | |]; simpl; try discriminate.
  destruct s; [discriminate | reflexivity].
Qed.

Lemma non_empty_is_not_None v : non_empty v -> is_not_None v = true.
Proof. destruct v; simpl; auto. Qed.

Lemma is_formula_spec v :
  is_formula v = true <-> exists s, v = VStr s /\ startswith s "=" = true.
Proof.
  split.
  - destruct v; simpl; try discriminate. eauto.
  - intros (s & -> & H). exact H.
Qed.

(** ** Looking a sheet up by its name *)

(** [wb[name]] is the worksheet of that title if there is one, else the
    chartsheet of that title. *)
Lemma lookup_sheet_eq name wb :
  lookup_sheet name wb =
  match find_sheet name wb with
  | Some sh => Some (Worksheet sh)
  | None => option_map Chartsheet (find_chart name wb)
  end.
Proof.
  unfold lookup_sheet, find_sheet, find_chart.
  induction (worksheets wb) as [|sh l IH]; simpl.
  - induction (chartsheets wb) as [|c l IH]; simpl; [reflexivity|].
    destruct (String.eqb c name); [reflexivity | exact IH].
  - destruct (String.eqb (title sh) name); [reflexivity | exact IH].
Qed.

Lemma In_worksheets sh wb : In sh (worksheets wb) <-> In (Worksheet sh) wb.
Proof.
  induction wb as [|[sh'|c] wb IH]; simpl.
  - tauto.
  - rewrite IH. split; intros [H|H]; auto; left; congruence.
  - rewrite IH. split; [auto | intros [H|H]; [discriminate | auto]].
Qed.

Lemma In_chartsheets c wb : In c (chartsheets wb) <-> In (Chartsheet c) wb.
Proof.
  induction wb as [|[sh'|c'] wb IH]; simpl.
  - tauto.
  - rewrite IH. split; [auto | intros [H|H]; [discriminate | auto]].
  - rewrite IH. split; intros [H|H]; auto; left; congruence.
Qed.

Lemma find_sheet_Some name wb sh :
  find_sheet name wb = Some sh -> In (Worksheet sh) wb /\ title sh = name.
Proof.
  unfold find_sheet. intros H. apply find_some in H as [H1 H2].
  split; [now apply In_worksheets | now apply String.eqb_eq].
Qed.

(** Indexing a workbook by one of its own sheet names finds a sheet. *)
Lemma lookup_sheetnames name wb :
  In name (sheetnames wb) -> exists s, lookup_sheet name wb = Some s.
Proof.
  intros Hin. rewrite lookup_sheet_eq.
  destruct (find_sheet name wb) as [sh|] eqn:Hf; [eauto|].
  destruct (find_chart name wb) as [c|] eqn:Hc; [simpl; eauto|].
  exfalso. unfold sheetnames in Hin. apply in_map_iff in Hin as ([sh|c] & Ht & Hin).
  - apply In_worksheets in Hin. apply (find_none _ _ Hf) in Hin.
    simpl in Ht. rewrite Ht, String.eqb_refl in Hin. discriminate.
  - apply In_chartsheets in Hin. apply (find_none _ _ Hc) in Hin.
    simpl in Ht. rewrite Ht, String.eqb_refl in Hin. discriminate.
Qed.

(** In a workbook without chartsheets every sheet name is a worksheet's. *)
Lemma find_sheet_sheetnames name wb :
  chartsheets wb = [] ->
  In name (sheetnames wb) -> exists sh, find_sheet name wb = Some sh.
Proof.
  intros Hno Hin. destruct (lookup_sheetnames name wb Hin) as [s Hs].
  rewrite lookup_sheet_eq in Hs. unfold find_chart in Hs. rewrite Hno in Hs.
  destruct (find_sheet name wb); [eauto | discriminate].
Qed.

(** ** The scan of the cells of one sheet *)

Section Scan.

Variable w : World.
Variable sheet_name : string.

Abbreviation scan := (fun cs => for_each cs (scan_cell w sheet_name)).

(** The body of the cell loop, as a function of the state. *)
Lemma scan_cell_eq c F V st :
  scan_cell w sheet_name c (F, V) st =
  if is_formula (value c) then
    match load_workbook w (loads st) true with
    | None =>
        (Raise SourceUnavailable,
         mkState (stdout st) (S (loads st)) (acquired st) (closed st))
    | Some wbd =>
        let st1 := mkState (stdout st) (S (loads st))
                     (acquired st ++ [loads st]) (closed st) in
        match find_sheet sheet_name wbd with
        | Some sd =>
            (Ok (dict_set (cell_addr c) (value c) F,
                 dict_set (cell_addr c) (value_at sd (cell_addr c)) V), st1)
        | None =>
            match find_chart sheet_name wbd with
            | Some _ => (Raise TypeError, st1)
            | None => (Raise (KeyError sheet_name), st1)
            end
        end
    end
  else if not_in_empty_or_None (value c) then
    (Ok (F, dict_set (cell_addr c) (value c) V), st)
  else (Ok (F, V), st).
Proof.
  unfold scan_cell.
  destruct (is_formula (value c)) eqn:Hf.
  - rewrite (non_empty_is_not_None _ (is_formula_non_empty _ Hf)).
    unfold bind at 1. unfold load.
    destruct (load_workbook w (loads st) true) as [wbd|]; [|reflexivity].
    cbn [snd]. unfold bind at 1. unfold wb_getitem.
    rewrite lookup_sheet_eq.
    destruct (find_sheet sheet_name wbd) as [sd|]; [reflexivity|].
    destruct (find_chart sheet_name wbd); reflexivity.
  - destruct (value c) as [|[|a s]| | |]; reflexivity.
Qed.

Lemma scan_cell_Ok c F V st d' st' :
  scan_cell w sheet_name c (F, V) st = (Ok d', st') ->
  exists k, cell_step w sheet_name c F V st k d' st'.
Proof.
  rewrite scan_cell_eq.
  destruct (is_formula (value c)) eqn:Hf.
  - destruct (load_workbook w (loads st) true) as [wbd|] eqn:Hl; [|discriminate].
    cbv zeta.
    destruct (find_sheet sheet_name wbd) as [sd|] eqn:Hs.
    + intros H. injection H as <- <-.
      eexists. now apply step_formula with (wbd := wbd).
    + destruct (find_chart sheet_name wbd); discriminate.
  - destruct (not_in_empty_or_None (value c)) eqn:He;
      intros H; injection H as <- <-.
    + eexists. now apply step_literal.
    + eexists. now apply step_skip.
Qed.

(** Conversely, every step is a completed run of the body. *)
Lemma cell_step_scan_cell c F V st k d' st' :
  cell_step w sheet_name c F V st k d' st' ->
  scan_cell w sheet_name c (F, V) st = (Ok d', st').
Proof.
  intros Hstep. rewrite scan_cell_eq.
  inversion Hstep as [wbd sd Hf Hl Hs | Hf He | He]; subst.
  - rewrite Hf, Hl. cbv zeta. rewrite Hs. reflexivity.
  - rewrite Hf, He. reflexivity.
  - destruct (is_formula (value c)) eqn:Hf.
    + apply is_formula_non_empty in Hf. unfold non_empty in Hf. congruence.
    + rewrite He. reflexivity.
Qed.

Lemma scan_cons_Ok c cs d st d' st' :
  scan (c :: cs) d st = (Ok d', st') ->
  exists k F1 V1 st1,
    cell_step w sheet_name c (fst d) (snd d) st k (F1, V1) st1 /\
    scan cs (F1, V1) st1 = (Ok d', st').
Proof.
  simpl. intros H. apply bind_Ok in H as ([F1 V1] & st1 & H1 & H2).
  destruct d as [F V]. apply scan_cell_Ok in H1 as [k H1]. eauto 6.
Qed.

(** Every key of the dicts comes from a cell that was stored. *)
Lemma scan_keys cs : forall F V st F' V' st',
  scan cs (F, V) st = (Ok (F', V'), st') ->
  (forall a, In a (keys F') ->
     In a (keys F) \/
     exists c, In c cs /\ cell_addr c = a /\ is_formula (value c) = true) /\
  (forall a, In a (keys V') ->
     In a (keys V) \/
     exists c, In c cs /\ cell_addr c = a /\ non_empty (value c)).
Proof.
  induction cs as [|c cs IH]; intros F V st F' V' st' H.
  - simpl in H. unfold ret in H. injection H as <- <- <-. auto.
  - apply scan_cons_Ok in H as (k0 & F1 & V1 & st1 & Hstep & Hrest). simpl in Hstep.
    apply IH in Hrest as [HF HV].
    split; intros a Ha.
    + apply HF in Ha as [Ha | (c' & Hin & Hc)].
      * inversion Hstep; subst; auto.
        apply keys_set in Ha as [->|Ha]; auto.
        right. exists c. simpl; auto.
      * right. exists c'. simpl; tauto.
    + apply HV in Ha as [Ha | (c' & Hin & Hc)].
      * inversion Hstep; subst; auto.
        -- apply keys_set in Ha as [->|Ha]; auto.
           right. exists c. simpl. auto using is_formula_non_empty.
        -- apply keys_set in Ha as [->|Ha]; auto.
           right. exists c. simpl. auto.
      * right. exists c'. simpl; tauto.
Qed.

(** A formula never enters [formulas] without its address entering
    [values]. *)
Lemma scan_subset cs : forall F V st F' V' st',
  scan cs (F, V) st = (Ok (F', V'), st') ->
  incl (keys F) (keys V) -> incl (keys F') (keys V').
Proof.
  induction cs as [|c cs IH]; intros F V st F' V' st' H Hincl.
  - simpl in H. unfold ret in H. now injection H as <- <- <-.
  - apply scan_cons_Ok in H as (k0 & F1 & V1 & st1 & Hstep & Hrest). simpl in Hstep.
    apply IH in Hrest; auto.
    inversion Hstep; subst; auto.
    + intros a Ha. apply keys_set. apply keys_set in Ha as [->|Ha]; auto.
    + intros a Ha. apply keys_set. auto.
Qed.

(** With one cell per address, what each cell leaves in the dicts. *)
Lemma scan_get cs : forall F V st F' V' st',
  scan cs (F, V) st = (Ok (F', V'), st') ->
  NoDup (addrs cs) ->
  (forall c, In c cs -> is_formula (value c) = true ->
     dict_get (cell_addr c) F' = Some (value c) /\
     exists k wbd sd,
       load_workbook w k true = Some wbd /\
       find_sheet sheet_name wbd = Some sd /\
       dict_get (cell_addr c) V' = Some (value_at sd (cell_addr c))) /\
  (forall c, In c cs -> is_formula (value c) = false ->
     dict_get (cell_addr c) F' = dict_get (cell_addr c) F /\
     (non_empty (value c) -> dict_get (cell_addr c) V' = Some (value c)) /\
     (not_in_empty_or_None (value c) = false ->
        dict_get (cell_addr c) V' = dict_get (cell_addr c) V)) /\
  (forall a, ~ In a (addrs cs) ->
     dict_get a F' = dict_get a F /\ dict_get a V' = dict_get a V).
Proof.
  induction cs as [|c0 cs IH]; intros F V st F' V' st' H Hnd.
  - simpl in H. unfold ret in H. injection H as <- <- <-.
    repeat split; intros; simpl in *; tauto.
  - apply scan_cons_Ok in H as (k0 & F1 & V1 & st1 & Hstep & Hrest). simpl in Hstep.
    simpl in Hnd. apply NoDup_cons_iff in Hnd as [Hnew Hnd].
    destruct (IH _ _ _ _ _ _ Hrest Hnd) as (Hform & Hlit & Hout).
    destruct (Hout _ Hnew) as [HF0 HV0].
    assert (Hother : forall a, a <> cell_addr c0 ->
              dict_get a F1 = dict_get a F /\ dict_get a V1 = dict_get a V).
    { intros a Ha. inversion Hstep; subst; auto;
        rewrite ?dict_get_set_other by congruence; auto. }
    assert (Hne : forall c, In c cs -> cell_addr c <> cell_addr c0).
    { intros c Hin Heq. apply Hnew. rewrite <- Heq. now apply in_map. }
    split; [|split].
    + intros c [<-|Hin] Hf; [|now apply Hform].
      rewrite HF0, HV0.
      inversion Hstep as [wbd sd _ Hl Hs | |]; subst; try congruence.
      * rewrite !dict_get_set_same. split; auto.
        exists (loads st), wbd, sd. auto.
      * apply is_formula_non_empty in Hf. unfold non_empty in Hf. congruence.
    + intros c [<-|Hin] Hf.
      * rewrite HF0, HV0.
        inversion Hstep; subst; try congruence.
        -- rewrite dict_get_set_same. unfold non_empty. repeat split; congruence.
        -- unfold non_empty. repeat split; congruence.
      * destruct (Hlit c Hin Hf) as (H1 & H2 & H3).
        destruct (Hother _ (Hne c Hin)) as [H4 H5].
        rewrite H1, H4. repeat split; auto. intros He. now rewrite H3.
    + intros a Ha. unfold addrs in Ha. simpl in Ha.
      destruct (Hout a) as [H1 H2]; [tauto|].
      destruct (Hother a) as [H3 H4]; [intros ->; tauto|].
      split; congruence.
Qed.

(** With one cell per address, the keys come in the order of the cells,
    and one load is made per formula cell. *)
Lemma scan_order cs : forall F V st F' V' st',
  scan cs (F, V) st = (Ok (F', V'), st') ->
  NoDup (addrs cs) ->
  (forall a, In a (addrs cs) -> ~ In a (keys F) /\ ~ In a (keys V)) ->
  keys F' = (keys F ++ addrs (filter (fun c => is_formula (value c)) cs))%list /\
  keys V' =
    (keys V ++ addrs (filter (fun c => not_in_empty_or_None (value c)) cs))%list /\
  loads st' =
    (loads st + List.length (filter (fun c => is_formula (value c)) cs))%nat.
Proof.
  induction cs as [|c0 cs IH]; intros F V st F' V' st' H Hnd Hfresh.
  - simpl in H. unfold ret in H. injection H as <- <- <-.
    simpl. rewrite !app_nil_r. auto.
  - apply scan_cons_Ok in H as (k0 & F1 & V1 & st1 & Hstep & Hrest). simpl in Hstep.
    simpl in Hnd. apply NoDup_cons_iff in Hnd as [Hnew Hnd].
    destruct (Hfresh (cell_addr c0)) as [HnF HnV]; [now left|].
    assert (Hfresh1 : forall a, In a (addrs cs) ->
              ~ In a (keys F1) /\ ~ In a (keys V1)).
    { intros a Ha. destruct (Hfresh a) as [H1 H2]; [now right|].
      assert (a <> cell_addr c0) by congruence.
      inversion Hstep; subst; rewrite ?keys_set; tauto. }
    destruct (IH _ _ _ _ _ _ Hrest Hnd Hfresh1) as (HF & HV & HL).
    rewrite HF, HV, HL. simpl.
    inversion Hstep as [wbd sd Hf Hl Hs | Hf He | He]; subst.
    + pose proof (is_formula_non_empty _ Hf) as He. unfold non_empty in He.
      rewrite Hf, He. simpl.
      rewrite !keys_set_new by assumption. rewrite <- !app_assoc. simpl.
      repeat split; auto; lia.
    + rewrite Hf, He. simpl.
      rewrite keys_set_new by assumption. rewrite <- !app_assoc. simpl.
      repeat split; auto; lia.
    + assert (Hf : is_formula (value c0) = false).
      { destruct (is_formula (value c0)) eqn:E; auto.
        apply is_formula_non_empty in E. unfold non_empty in E. congruence. }
      rewrite Hf, He. simpl. repeat split; auto; lia.
Qed.

(** The scan prints nothing and closes nothing. *)
Lemma scan_cell_quiet c d st r st' :
  scan_cell w sheet_name c d st = (r, st') ->
  stdout st' = stdout st /\ closed st' = closed st /\
  exists hs, acquired st' = (acquired st ++ hs)%list.
Proof.
  assert (Hsame : stdout st = stdout st /\ closed st = closed st /\
                  exists hs, acquired st = (acquired st ++ hs)%list).
  { repeat split. exists []. now rewrite app_nil_r. }
  destruct d as [F V]. rewrite scan_cell_eq.
  destruct (is_formula (value c)).
  - destruct (load_workbook w (loads st) true) as [wbd|].
    + cbv zeta.
      destruct (find_sheet sheet_name wbd); [|destruct (find_chart sheet_name wbd)];
        intros H; injection H as <- <-; simpl; repeat split; eauto.
    + intros H; injection H as <- <-. simpl. exact Hsame.
  - destruct (not_in_empty_or_None (value c));
      intros H; injection H as <- <-; exact Hsame.
Qed.

Lemma scan_quiet cs : forall d st r st',
  scan cs d st = (r, st') ->
  stdout st' = stdout st /\ closed st' = closed st /\
  exists hs, acquired st' = (acquired st ++ hs)%list.
Proof.
  induction cs as [|c0 cs IH]; intros d st r st' H.
  - cbn [for_each] in H. unfold ret in H. injection H as <- <-.
    repeat split. exists []. now rewrite app_nil_r.
  - cbn [for_each] in H. unfold bind in H.
    destruct (scan_cell w sheet_name c0 d st) as [[d1|e] st1] eqn:Hc;
      apply scan_cell_quiet in Hc as (H1 & H2 & hs1 & H3).
    + apply IH in H as (H4 & H5 & hs & H6).
      rewrite H4, H5, H6, H3, <- app_assoc. eauto.
    + injection H as <- <-. eauto.
Qed.

(** The two nested loops meet the cells of the rows one after the other. *)
Lemma scan_rows_concat rows : forall d st,
  scan_rows w sheet_name rows d st = scan (List.concat rows) d st.
Proof.
  unfold scan_rows.
  induction rows as [|r rows IH]; intros d st; simpl.
  - reflexivity.
  - rewrite for_each_app. unfold bind.
    destruct (for_each r (scan_cell w sheet_name) d st) as [[d1|e] st1]; auto.
Qed.

End Scan.

(** ** Printing *)

Lemma extends_refl st : extends st st.
Proof.
  repeat split; [exists [] | exists []]; now rewrite app_nil_r.
Qed.

Lemma extends_trans st1 st2 st3 :
  extends st1 st2 -> extends st2 st3 -> extends st1 st3.
Proof.
  intros ([o1 H1] & H2 & [h1 H3]) ([o2 H4] & H5 & [h2 H6]).
  repeat split.
  - exists (o1 ++ o2)%list. now rewrite H4, H1, app_assoc.
  - congruence.
  - exists (h1 ++ h2)%list. now rewrite H6, H3, app_assoc.
Qed.

Lemma extends_emit ls st : extends st (emit ls st).
Proof.
  repeat split; simpl; eauto. exists []. now rewrite app_nil_r.
Qed.

Lemma quiet_extends st st' :
  stdout st' = stdout st -> closed st' = closed st ->
  (exists hs, acquired st' = (acquired st ++ hs)%list) ->
  extends st st'.
Proof.
  intros H1 H2 H3. repeat split; auto. exists []. now rewrite app_nil_r.
Qed.

Lemma print_key_cells_run {L : StrLower} values st :
  print_key_cells values st = (Ok tt, emit (map key_line (keyword_matched values)) st).
Proof.
  unfold print_key_cells. revert st.
  induction values as [|[addr val] values IH]; intros st.
  - simpl. now rewrite emit_nil.
  - cbn [for_each]. unfold bind. unfold keyword_matched. simpl filter.
    destruct (is_keyword_text val).
    + unfold print. rewrite IH. simpl map. now rewrite emit_emit.
    + unfold ret. now rewrite IH.
Qed.

Lemma print_formulas_run formulas values st :
  print_formulas formulas values st = (Ok tt, emit (formula_lines formulas values) st).
Proof.
  unfold print_formulas, formula_lines. revert st.
  induction formulas as [|[addr formula] formulas IH]; intros st.
  - simpl. now rewrite emit_nil.
  - cbn [for_each flat_map]. unfold bind at 1. unfold bind at 1.
    unfold print at 1. unfold dict_in, formula_entry. simpl fst.
    destruct (dict_get addr values) as [v|].
    + unfold print. rewrite IH, !emit_emit. reflexivity.
    + unfold ret. rewrite IH, !emit_emit. reflexivity.
Qed.

(** ** One sheet, then all of them *)

Section Sheets.

Context {L : StrLower}.
Variable w : World.
Variable wb : Workbook.

(** The body of the sheet loop, with the printing loops run. *)
Lemma analyze_sheet_eq sheet_name st :
  analyze_sheet w wb sheet_name st =
  match find_sheet sheet_name wb with
  | None =>
      match find_chart sheet_name wb with
      | Some _ =>
          (Raise AttributeError,
           emit [PText ("SHEET: " ++ sheet_name); PText (str_mul "-" 30)] st)
      | None => (Raise (KeyError sheet_name), st)
      end
  | Some sh =>
      match scan_rows w sheet_name (iter_rows sh) ([], [])
              (emit [PText ("SHEET: " ++ sheet_name); PText (str_mul "-" 30)] st) with
      | (Ok d, st1) =>
          (Ok tt,
           emit ([PText (nl ++ "Key Input/Output cells:")]
                 ++ map key_line (keyword_matched (snd d))
                 ++ [PText (nl ++ "Key Formulas:")]
                 ++ formula_lines (fst d) (snd d)
                 ++ [separator])%list st1)
      | (Raise e, st1) => (Raise e, st1)
      end
  end.
Proof.
  unfold analyze_sheet, wb_getitem. rewrite lookup_sheet_eq.
  destruct (find_sheet sheet_name wb) as [sh|].
  - unfold bind at 1. unfold ret at 1.
    unfold bind at 1. unfold print at 1.
    unfold bind at 1. unfold print at 1.
    rewrite emit_emit. cbn [app].
    unfold bind at 1. unfold sheet_iter_rows, ret at 1.
    unfold bind at 1.
    destruct (scan_rows w sheet_name (iter_rows sh) ([], []) _) as [[d|e] st1];
      [|reflexivity].
    unfold bind at 1. unfold print at 1.
    unfold bind at 1. rewrite print_key_cells_run.
    unfold bind at 1. unfold print at 1.
    unfold bind at 1. rewrite print_formulas_run.
    unfold print, separator. rewrite !emit_emit.
    reflexivity.
  - destruct (find_chart sheet_name wb) as [c|]; [|reflexivity].
    cbn [option_map].
    unfold bind at 1. unfold ret at 1.
    unfold bind at 1. unfold print at 1.
    unfold bind at 1. unfold print at 1.
    rewrite emit_emit. reflexivity.
Qed.

Lemma scan_rows_quiet sheet_name rows d st r st' :
  scan_rows w sheet_name rows d st = (r, st') ->
  stdout st' = stdout st /\ closed st' = closed st /\
  exists hs, acquired st' = (acquired st ++ hs)%list.
Proof. rewrite scan_rows_concat. apply scan_quiet. Qed.

Lemma analyze_sheet_extends sheet_name st r st' :
  analyze_sheet w wb sheet_name st = (r, st') -> extends st st'.
Proof.
  rewrite analyze_sheet_eq.
  destruct (find_sheet sheet_name wb) as [sh|].
  - destruct (scan_rows _ _ _ _ _) as [[d|e] st1] eqn:Hs;
      apply scan_rows_quiet in Hs as (H1 & H2 & hs & H3);
      intros H; injection H as <- <-.
    + eapply extends_trans; [|apply extends_emit].
      eapply extends_trans; [apply extends_emit|].
      apply quiet_extends; eauto.
    + eapply extends_trans; [apply extends_emit|].
      apply quiet_extends; eauto.
  - destruct (find_chart sheet_name wb); intros H; injection H as <- <-.
    + apply extends_emit.
    + apply extends_refl.
Qed.

Lemma analyze_sheet_Ok sheet_name st st' :
  analyze_sheet w wb sheet_name st = (Ok tt, st') ->
  exists sec, section_of w wb sheet_name sec /\
              stdout st' = (stdout st ++ sec)%list.
Proof.
  rewrite analyze_sheet_eq.
  destruct (find_sheet sheet_name wb) as [sh|] eqn:Hf;
    [|destruct (find_chart sheet_name wb); discriminate].
  destruct (scan_rows _ _ _ _ _) as [[d|e] st1] eqn:Hs; [|discriminate].
  intros H; injection H as <-.
  exists (section_lines sheet_name d). split.
  - exists sh, d. eauto.
  - apply scan_rows_quiet in Hs as (H1 & _). simpl. rewrite H1. simpl.
    unfold section_lines. rewrite <- !app_assoc. reflexivity.
Qed.

Abbreviation sheets_loop :=
  (fun names => for_each names (fun sheet_name (_ : unit) => analyze_sheet w wb sheet_name) tt).

Lemma sheets_loop_extends names : forall st r st',
  sheets_loop names st = (r, st') -> extends st st'.
Proof.
  induction names as [|n names IH]; intros st r st' H.
  - cbn [for_each] in H. unfold ret in H. injection H as <- <-.
    apply extends_refl.
  - cbn [for_each] in H. unfold bind in H.
    destruct (analyze_sheet w wb n st) as [[[]|e] st1] eqn:Ha;
      apply analyze_sheet_extends in Ha.
    + apply IH in H. eapply extends_trans; eauto.
    + now injection H as <- <-.
Qed.

(** A completed sheet loop printed one section per sheet name, in the
    order of the names. *)
Lemma sheets_loop_Ok names : forall st st',
  sheets_loop names st = (Ok tt, st') ->
  exists secs, Forall2 (section_of w wb) names secs /\
               stdout st' = (stdout st ++ List.concat secs)%list.
Proof.
  induction names as [|n names IH]; intros st st' H.
  - cbn [for_each] in H. unfold ret in H. injection H as <-.
    exists []. split; [constructor | simpl; now rewrite app_nil_r].
  - cbn [for_each] in H. apply bind_Ok in H as ([] & st1 & Ha & Hrest).
    apply analyze_sheet_Ok in Ha as (sec & Hsec & Hout).
    apply IH in Hrest as (secs & Hsecs & Hout').
    exists (sec :: secs). split; [now constructor|].
    simpl. now rewrite Hout', Hout, app_assoc.
Qed.

(** A sheet loop that raises printed the sections of the sheets before the
    one that failed, and the header of that one if its sheet was found. *)
Lemma sheets_loop_Raise names : forall st e st',
  sheets_loop names st = (Raise e, st') ->
  exists done n rest secs tail,
    names = (done ++ n :: rest)%list /\
    Forall2 (section_of w wb) done secs /\
    stdout st' = (stdout st ++ List.concat secs ++ tail)%list /\
    match lookup_sheet n wb with
    | Some _ => tail = [PText ("SHEET: " ++ n); PText (str_mul "-" 30)]
    | None => tail = []
    end.
Proof.
  induction names as [|n names IH]; intros st e st' H.
  - discriminate.
  - cbn [for_each] in H. unfold bind in H.
    destruct (analyze_sheet w wb n st) as [[[]|e1] st1] eqn:Ha.
    + apply analyze_sheet_Ok in Ha as (sec & Hsec & Hout).
      apply IH in H as (done & n' & rest & secs & tail & Hn & Hsecs & Hout' & Ht).
      exists (n :: done), n', rest, (sec :: secs), tail.
      repeat split; auto.
      * simpl. now rewrite Hn.
      * simpl. now rewrite Hout', Hout, <- !app_assoc.
    + injection H as <- <-.
      exists [], n, names, [].
      rewrite analyze_sheet_eq in Ha. rewrite lookup_sheet_eq.
      destruct (find_sheet n wb) as [sh|].
      * destruct (scan_rows _ _ _ _ _) as [[d|e2] st2] eqn:Hs; [discriminate|].
        injection Ha as <- <-. apply scan_rows_quiet in Hs as (Hq & _).
        eexists. repeat split; [constructor | exact Hq].
      * destruct (find_chart n wb); injection Ha as <- <-; cbn [option_map].
        -- exists [PText ("SHEET: " ++ n); PText (str_mul "-" 30)].
           repeat split. constructor.
        -- exists []. repeat split; [constructor | simpl; now rewrite app_nil_r].
Qed.

End Sheets.

(** ** The whole script *)

Lemma script_eq {L : StrLower} w st :
  script w st =
  match load_workbook w (loads st) false with
  | None =>
      (Raise SourceUnavailable,
       mkState (stdout st) (S (loads st)) (acquired st) (closed st))
  | Some wbf =>
      match for_each (sheetnames wbf)
              (fun sheet_name (_ : unit) => analyze_sheet w wbf sheet_name) tt
              (emit [PSheets (sheetnames wbf); separator]
                 (mkState (stdout st) (S (loads st))
                    (acquired st ++ [loads st]) (closed st))) with
      | (Ok _, st1) => (Ok tt, mkState (stdout st1) (loads st1) (acquired st1)
                                 (closed st1 ++ [loads st]))
      | (Raise e, st1) => (Raise e, st1)
      end
  end.
Proof.
  unfold script. unfold bind at 1. unfold load.
  destruct (load_workbook w (loads st) false) as [wbf|]; [|reflexivity].
  cbn [fst snd].
  unfold bind at 1. unfold print_sheets at 1.
  unfold bind at 1. unfold print at 1.
  rewrite emit_emit. cbn [app]. fold separator.
  unfold bind at 1.
  destruct (for_each _ _ _ _) as [[u|e] st1]; reflexivity.
Qed.

(** ** Blocks of consecutive prints *)

Section Infix.

Context {A : Type}.
Implicit Types l big pre post : list A.

Lemma infix_refl l : infix l l.
Proof. exists [], []. simpl. now rewrite app_nil_r. Qed.

Lemma infix_app_l l big pre : infix l big -> infix l (pre ++ big).
Proof.
  intros (p & q & ->). exists (pre ++ p)%list, q. now rewrite app_assoc.
Qed.

Lemma infix_app_r l big post : infix l big -> infix l (big ++ post).
Proof.
  intros (p & q & ->). exists p, (q ++ post)%list.
  now rewrite <- !app_assoc.
Qed.

Lemma infix_cons l big x : infix l big -> infix l (x :: big).
Proof. apply (infix_app_l l big [x]). Qed.

Lemma infix_concat l big bigs :
  In big bigs -> infix l big -> infix l (List.concat bigs).
Proof.
  intros Hin Hl. apply in_split in Hin as (b1 & b2 & ->).
  rewrite concat_app. simpl. apply infix_app_l, infix_app_r, Hl.
Qed.

Lemma infix_flat_map {B : Type} (f : B -> list A) x xs :
  In x xs -> infix (f x) (flat_map f xs).
Proof.
  intros Hin. apply in_split in Hin as (b1 & b2 & ->).
  rewrite flat_map_app. simpl. apply infix_app_l, infix_app_r, infix_refl.
Qed.

End Infix.

Lemma Forall2_In_l {A B : Type} (R : A -> B -> Prop) l1 l2 a :
  Forall2 R l1 l2 -> In a l1 -> exists b, In b l2 /\ R a b.
Proof.
  induction 1 as [|x y l1 l2 HR HF IH]; simpl; [tauto|].
  intros [->|Hin]; eauto.
  destruct (IH Hin) as (b & Hb & HRb). eauto.
Qed.

(** ** A file that stays readable and unmodified *)

Section Stable.

Context {L : StrLower}.
Variables wbf wbd : Workbook.

Lemma load_stable w data_only st :
  stable w wbf wbd ->
  load w data_only st =
  (Ok (loads st, if data_only then wbd else wbf),
   mkState (stdout st) (S (loads st)) (acquired st ++ [loads st]) (closed st)).
Proof.
  intros Hs. unfold load. destruct (Hs (loads st)) as [H1 H2].
  destruct data_only; [rewrite H2 | rewrite H1]; reflexivity.
Qed.

(** The outcome of a cell does not depend on the moment of the run. *)
Lemma scan_cell_stable w1 w2 sheet_name c d st1 st2 :
  stable w1 wbf wbd -> stable w2 wbf wbd ->
  fst (scan_cell w1 sheet_name c d st1) = fst (scan_cell w2 sheet_name c d st2).
Proof.
  intros H1 H2. destruct d as [F V]. rewrite !scan_cell_eq.
  destruct (is_formula (value c)).
  - destruct (H1 (loads st1)) as [_ ->]. destruct (H2 (loads st2)) as [_ ->].
    cbv zeta.
    destruct (find_sheet sheet_name wbd); [reflexivity|].
    destruct (find_chart sheet_name wbd); reflexivity.
  - destruct (not_in_empty_or_None (value c)); reflexivity.
Qed.

Lemma scan_stable w1 w2 sheet_name cs :
  stable w1 wbf wbd -> stable w2 wbf wbd ->
  forall d st1 st2,
    fst (for_each cs (scan_cell w1 sheet_name) d st1) =
    fst (for_each cs (scan_cell w2 sheet_name) d st2).
Proof.
  intros H1 H2. induction cs as [|c cs IH]; intros d st1 st2.
  - reflexivity.
  - cbn [for_each]. unfold bind.
    pose proof (scan_cell_stable w1 w2 sheet_name c d st1 st2 H1 H2) as Hc.
    destruct (scan_cell w1 sheet_name c d st1) as [[d1|e1] s1],
             (scan_cell w2 sheet_name c d st2) as [[d2|e2] s2];
      simpl in Hc; try discriminate.
    + injection Hc as <-. apply IH.
    + exact Hc.
Qed.

Lemma analyze_sheet_stable w1 w2 sheet_name st1 st2 :
  stable w1 wbf wbd -> stable w2 wbf wbd ->
  stdout st1 = stdout st2 ->
  fst (analyze_sheet w1 wbf sheet_name st1) = fst (analyze_sheet w2 wbf sheet_name st2) /\
  stdout (snd (analyze_sheet w1 wbf sheet_name st1)) =
  stdout (snd (analyze_sheet w2 wbf sheet_name st2)).
Proof.
  intros H1 H2 Hout. rewrite !analyze_sheet_eq.
  destruct (find_sheet sheet_name wbf) as [sh|];
    [|destruct (find_chart sheet_name wbf); simpl; split; congruence].
  rewrite !scan_rows_concat.
  match goal with
  | |- context [for_each ?cs (scan_cell w1 ?n) ?d ?s1] =>
      match goal with
      | |- context [for_each cs (scan_cell w2 n) d ?s2] =>
          pose proof (scan_stable w1 w2 n cs H1 H2 d s1 s2) as Hs;
          destruct (for_each cs (scan_cell w1 n) d s1) as [[d1|e1] t1] eqn:E1;
          destruct (for_each cs (scan_cell w2 n) d s2) as [[d2|e2] t2] eqn:E2
      end
  end; simpl in Hs; try discriminate;
    apply scan_quiet in E1 as (Q1 & _); apply scan_quiet in E2 as (Q2 & _);
    simpl in Q1, Q2; injection Hs as <-; simpl; split; congruence.
Qed.

Lemma sheets_loop_stable w1 w2 names :
  stable w1 wbf wbd -> stable w2 wbf wbd ->
  forall st1 st2,
    stdout st1 = stdout st2 ->
    let r1 := for_each names (fun n (_ : unit) => analyze_sheet w1 wbf n) tt st1 in
    let r2 := for_each names (fun n (_ : unit) => analyze_sheet w2 wbf n) tt st2 in
    fst r1 = fst r2 /\ stdout (snd r1) = stdout (snd r2).
Proof.
  intros H1 H2. induction names as [|n names IH]; intros st1 st2 Hout; simpl.
  - auto.
  - unfold bind.
    destruct (analyze_sheet_stable w1 w2 n st1 st2 H1 H2 Hout) as [Hr Ho].
    destruct (analyze_sheet w1 wbf n st1) as [[[]|e1] s1],
             (analyze_sheet w2 wbf n st2) as [[[]|e2] s2];
      simpl in Hr, Ho; try discriminate.
    + apply IH, Ho.
    + simpl. auto.
Qed.

(** Totality: with the file readable and every sheet present in the
    values-only view, nothing raises. *)
Lemma scan_stable_Ok w sheet_name sd cs :
  stable w wbf wbd -> find_sheet sheet_name wbd = Some sd ->
  forall d st, exists d' st',
    for_each cs (scan_cell w sheet_name) d st = (Ok d', st').
Proof.
  intros Hs Hf. induction cs as [|c cs IH]; intros [F V] st.
  - simpl. unfold ret. eauto.
  - cbn [for_each]. unfold bind.
    assert (Hc : exists d1 s1, scan_cell w sheet_name c (F, V) st = (Ok d1, s1)).
    { rewrite scan_cell_eq.
      destruct (is_formula (value c)).
      - destruct (Hs (loads st)) as [_ ->]. cbv zeta. rewrite Hf. eauto.
      - destruct (not_in_empty_or_None (value c)); eauto. }
    destruct Hc as (d1 & s1 & ->). apply IH.
Qed.

Lemma sheets_loop_stable_Ok w names :
  stable w wbf wbd ->
  chartsheets wbf = [] -> chartsheets wbd = [] ->
  incl names (sheetnames wbf) -> incl names (sheetnames wbd) ->
  forall st, exists st',
    for_each names (fun n (_ : unit) => analyze_sheet w wbf n) tt st = (Ok tt, st').
Proof.
  intros Hs Hcf Hcd. induction names as [|n names IH]; intros Hf Hd st.
  - simpl. unfold ret. eauto.
  - cbn [for_each]. unfold bind. rewrite analyze_sheet_eq.
    destruct (find_sheet_sheetnames n wbf Hcf) as [sh ->]; [apply Hf; now left|].
    destruct (find_sheet_sheetnames n wbd Hcd) as [sd Hsd]; [apply Hd; now left|].
    rewrite scan_rows_concat.
    match goal with
    | |- context [for_each ?cs (scan_cell w n) ?d ?s] =>
        destruct (scan_stable_Ok w n sd cs Hs Hsd d s) as (d' & s' & ->)
    end.
    apply IH; intros x Hx; [apply Hf | apply Hd]; now right.
Qed.

Lemma script_stable_Ok w st :
  stable w wbf wbd ->
  chartsheets wbf = [] -> chartsheets wbd = [] ->
  incl (sheetnames wbf) (sheetnames wbd) ->
  exists st', script w st = (Ok tt, st').
Proof.
  intros Hs Hcf Hcd Hincl. rewrite script_eq. destruct (Hs (loads st)) as [-> _].
  match goal with
  | |- context [for_each ?ns ?b tt ?s] =>
      destruct (sheets_loop_stable_Ok w ns Hs Hcf Hcd (incl_refl _) Hincl s)
        as (s' & ->)
  end.
  eauto.
Qed.

End Stable.

(** ** Keys stay distinct *)

Lemma keys_set_NoDup {V : Type} k (v : V) d :
  NoDup (keys d) -> NoDup (keys (dict_set k v d)).
Proof.
  induction d as [|[k' v'] d IH]; simpl; intros Hnd.
  - constructor; [simpl; tauto | constructor].
  - apply NoDup_cons_iff in Hnd as [Hn Hnd].
    destruct (String.eqb_spec k k') as [->|Hk]; simpl.
    + now constructor.
    + constructor; auto. rewrite keys_set. intros [H|H]; congruence.
Qed.

Lemma scan_NoDup_keys w sheet_name cs : forall F V st F' V' st',
  for_each cs (scan_cell w sheet_name) (F, V) st = (Ok (F', V'), st') ->
  NoDup (keys F) -> NoDup (keys V) -> NoDup (keys F') /\ NoDup (keys V').
Proof.
  induction cs as [|c cs IH]; intros F V st F' V' st' H HF HV.
  - simpl in H. unfold ret in H. injection H as <- <- <-. auto.
  - apply scan_cons_Ok in H as (k0 & F1 & V1 & st1 & Hstep & Hrest).
    simpl in Hstep. apply IH in Hrest; auto;
      inversion Hstep; subst; auto using keys_set_NoDup.
Qed.

(** In a dict with distinct keys, a key passes a filter exactly when its
    value does. *)
Lemma filter_key_iff {V : Type} (p : V -> bool) k v (d : dict V) :
  NoDup (keys d) -> dict_get k d = Some v ->
  (In k (keys (filter (fun item => p (snd item)) d)) <-> p v = true).
Proof.
  intros Hnd Hget. apply dict_get_In in Hget.
  unfold keys. rewrite in_map_iff. split.
  - intros ([k' v'] & Hk & Hin). simpl in Hk. subst k'.
    apply filter_In in Hin as [Hin Hp]. simpl in Hp.
    assert (v' = v); [|congruence].
    clear Hp. induction d as [|[k0 v0] d IH]; simpl in *; [tauto|].
    apply NoDup_cons_iff in Hnd as [Hn Hnd].
    destruct Hin as [E1|Hin], Hget as [E2|Hget].
    + congruence.
    + injection E1 as -> ->. exfalso. apply Hn.
      change k with (fst (k, v)). now apply in_map.
    + injection E2 as -> ->. exfalso. apply Hn.
      change k with (fst (k, v')). now apply in_map.
    + auto.
  - intros Hp. exists (k, v). split; auto. apply filter_In. auto.
Qed.

Lemma keyword_text_non_empty {L : StrLower} v :
  is_keyword_text v = true -> non_empty v.
Proof.
  destruct v as [|s| | |]; simpl; try discriminate.
  destruct s; [|reflexivity].
  rewrite lower_empty. intros H. vm_compute in H. discriminate.
Qed.

(** * The claims *)

(** The examples are run on ASCII text. *)
#[global] Existing Instance ascii_text.

(** ** Keyword matching *)

(** C1, as amended.  After a completed scan of a sheet with one cell per
    address: every cell taken as a literal whose text contains a keyword in
    lowercase is in the keyword-matched set with its raw text; a formula
    cell is matched on the resolved value recorded for it, not on its
    formula text: it is in the keyword-matched set exactly when the value
    looked up in the values-only view is a text containing a keyword. *)
Theorem keyword_match_on_recorded_value {L : StrLower} w sheet_name sh st F V st' :
  scan_rows w sheet_name (iter_rows sh) ([], []) st = (Ok (F, V), st') ->
  NoDup (addrs (cells sh)) ->
  (forall c, In c (cells sh) ->
     is_formula (value c) = false -> is_keyword_text (value c) = true ->
     In (cell_addr c, value c) (keyword_matched V)) /\
  (forall c, In c (cells sh) ->
     is_formula (value c) = true ->
     exists k wbd sd,
       load_workbook w k true = Some wbd /\
       find_sheet sheet_name wbd = Some sd /\
       (In (cell_addr c) (keys (keyword_matched V)) <->
        is_keyword_text (value_at sd (cell_addr c)) = true)).
Proof.
  rewrite scan_rows_concat. fold (cells sh). intros Hscan Hnd.
  destruct (scan_get _ _ _ _ _ _ _ _ _ Hscan Hnd) as (Hform & Hlit & _).
  destruct (scan_NoDup_keys _ _ _ _ _ _ _ _ _ Hscan (NoDup_nil _) (NoDup_nil _))
    as [_ HndV].
  split.
  - intros c Hin Hf Hk.
    destruct (Hlit c Hin Hf) as (_ & Hv & _).
    specialize (Hv (keyword_text_non_empty _ Hk)).
    apply filter_In. split; [now apply dict_get_In | exact Hk].
  - intros c Hin Hf.
    destruct (Hform c Hin Hf) as (_ & k & wbd & sd & Hl & Hs & Hv).
    exists k, wbd, sd. repeat split; auto.
    + intros H. now apply (filter_key_iff is_keyword_text _ _ _ HndV Hv).
    + intros H. now apply (filter_key_iff is_keyword_text _ _ _ HndV Hv).
Qed.

Lemma keyword_match_on_recorded_value_witness :
  In ("A1", VStr "Tank Diameter")
     (keyword_matched
        [("A1", VStr "Tank Diameter"); ("B1", VInt 12); ("C1", VInt 24);
         ("A2", VNone)]).
Proof.
  refine (proj1 (keyword_match_on_recorded_value Samples.readable "Sheet1"
                   Samples.sheet1 init_state _ _ _ _ _) Samples.label_cell _ _ _).
  - reflexivity.
  - repeat constructor; simpl; intuition discriminate.
  - simpl; auto.
  - reflexivity.
  - reflexivity.
Defined.

(** C1 as stated fails: the formula cell C1 holds the text [=TAN(B1)],
    whose lowercase form contains the keyword [tan]; its resolved value is
    the number 24, so the completed scan leaves C1 out of the
    keyword-matched set and prints no line for it among the key cells. *)
Lemma formula_text_keyword_not_matched :
  In Samples.tan_cell (cells Samples.sheet1) /\
  is_keyword_text (value Samples.tan_cell) = true /\
  exists F V st',
    scan_rows Samples.readable "Sheet1" (iter_rows Samples.sheet1) ([], []) init_state
    = (Ok (F, V), st') /\
    keyword_matched V = [("A1", VStr "Tank Diameter")] /\
    ~ In (cell_addr Samples.tan_cell) (keys (keyword_matched V)) /\
    fst (run Samples.readable) = Ok tt /\
    stdout (snd (run Samples.readable)) =
      (PSheets ["Notes"; "Sheet1"] :: separator
       :: section_lines "Notes" ([], [("A1", VStr "Total length")])
       ++ section_lines "Sheet1" (F, V))%list.
Proof.
  split; [simpl; auto|]. split; [reflexivity|].
  do 3 eexists. split; [reflexivity|].
  split; [|split; [|split]].
  - reflexivity.
  - vm_compute. intuition discriminate.
  - reflexivity.
  - reflexivity.
Qed.

(** ** Classification *)

(** C5.  A non-empty cell whose step completes went through exactly one of
    the two branches: the step is a formula step or a literal step, never a
    skip, and it is not both. *)
Theorem non_empty_cell_one_class w sheet_name c F V st d' st' :
  non_empty (value c) ->
  scan_cell w sheet_name c (F, V) st = (Ok d', st') ->
  exists k,
    cell_step w sheet_name c F V st (Some k) d' st' /\
    forall k', cell_step w sheet_name c F V st k' d' st' -> k' = Some k.
Proof.
  unfold non_empty. intros Hne Hrun.
  apply scan_cell_Ok in Hrun as [k0 Hstep].
  inversion Hstep as [wbd sd Hf Hl Hs | Hf He | He]; subst.
  - exists FormulaCell. split; [exact Hstep|].
    intros k' Hk'. inversion Hk'; subst; congruence.
  - exists LiteralCell. split; [exact Hstep|].
    intros k' Hk'. inversion Hk'; subst; congruence.
  - congruence.
Qed.

Lemma non_empty_cell_one_class_witness :
  exists k,
    cell_step Samples.readable "Sheet1" Samples.number_cell [] [] init_state
      (Some k) ([], [("B1", VInt 12)]) init_state /\
    forall k',
      cell_step Samples.readable "Sheet1" Samples.number_cell [] [] init_state
        k' ([], [("B1", VInt 12)]) init_state -> k' = Some k.
Proof.
  apply (non_empty_cell_one_class Samples.readable "Sheet1" Samples.number_cell
           [] [] init_state ([], [("B1", VInt 12)]) init_state).
  - reflexivity.
  - reflexivity.
Defined.

Lemma NoDup_addrs_inj cs c1 c2 :
  NoDup (addrs cs) -> In c1 cs -> In c2 cs -> cell_addr c1 = cell_addr c2 -> c1 = c2.
Proof.
  induction cs as [|c cs IH]; simpl; [tauto|].
  intros Hnd H1 H2 Heq. apply NoDup_cons_iff in Hnd as [Hn Hnd].
  destruct H1 as [<-|H1], H2 as [<-|H2]; auto.
  - exfalso. apply Hn. rewrite Heq. now apply in_map.
  - exfalso. apply Hn. rewrite <- Heq. now apply in_map.
Qed.

(** C6.  After a completed scan of a sheet, every address in an entry of
    the report, and every key of either dict, is the address of a cell of
    the sheet whose content is neither [None] nor the empty string; with
    one cell per address, an empty or absent cell has no entry. *)
Theorem report_entries_from_non_empty_cells {L : StrLower} w sheet_name sh st d st' :
  scan_rows w sheet_name (iter_rows sh) ([], []) st = (Ok d, st') ->
  (forall a,
     In a (report_addrs d) \/ In a (keys (fst d)) \/ In a (keys (snd d)) ->
     exists c, In c (cells sh) /\ cell_addr c = a /\ non_empty (value c)) /\
  (NoDup (addrs (cells sh)) ->
   forall c, In c (cells sh) -> not_in_empty_or_None (value c) = false ->
     ~ In (cell_addr c) (report_addrs d) /\
     ~ In (cell_addr c) (keys (fst d)) /\ ~ In (cell_addr c) (keys (snd d))).
Proof.
  rewrite scan_rows_concat. fold (cells sh). destruct d as [F V]. intros Hscan.
  destruct (scan_keys _ _ _ _ _ _ _ _ _ Hscan) as [HF HV].
  assert (Hkeys : forall a, In a (keys F) \/ In a (keys V) ->
            exists c, In c (cells sh) /\ cell_addr c = a /\ non_empty (value c)).
  { intros a [Ha|Ha].
    - destruct (HF a Ha) as [[]|(c & Hin & Hc & Hf)].
      exists c. auto using is_formula_non_empty.
    - destruct (HV a Ha) as [[]|(c & Hin & Hc & Hf)]. eauto. }
  assert (Hrep : forall a, In a (report_addrs (F, V)) ->
            In a (keys F) \/ In a (keys V)).
  { unfold report_addrs, keyword_matched, keys. simpl. intros a Ha.
    apply in_app_or in Ha as [Ha|Ha]; auto.
    right. apply in_map_iff in Ha as (item & <- & Hin).
    apply filter_In in Hin as [Hin _]. now apply in_map. }
  assert (Hall : forall a,
            In a (report_addrs (F, V)) \/ In a (keys F) \/ In a (keys V) ->
            exists c, In c (cells sh) /\ cell_addr c = a /\ non_empty (value c)).
  { intros a [Ha|Ha]; auto. }
  split; [exact Hall|].
  intros Hnd c Hin He.
  assert (Hno : ~ (In (cell_addr c) (report_addrs (F, V)) \/
                   In (cell_addr c) (keys F) \/ In (cell_addr c) (keys V))).
  { intros Ha. apply Hall in Ha as (c' & Hin' & Heq & Hne).
    apply (NoDup_addrs_inj _ _ _ Hnd Hin' Hin) in Heq. subst c'.
    unfold non_empty in Hne. congruence. }
  simpl. tauto.
Qed.

Lemma report_entries_from_non_empty_cells_witness :
  (forall a,
     In a ["A1"; "C1"; "A2"] \/ In a ["C1"; "A2"] \/ In a ["A1"; "B1"; "C1"; "A2"] ->
     exists c, In c (cells Samples.sheet1) /\ cell_addr c = a /\ non_empty (value c)) /\
  ~ In (cell_addr Samples.blank_cell) ["A1"; "B1"; "C1"; "A2"].
Proof.
  pose proof (report_entries_from_non_empty_cells Samples.readable "Sheet1"
                Samples.sheet1 init_state _ _ eq_refl) as [H1 H2].
  split.
  - exact H1.
  - refine (proj2 (proj2 (H2 _ Samples.blank_cell _ eq_refl))).
    + repeat constructor; simpl; intuition discriminate.
    + simpl; auto.
Defined.

(** C7.  After a completed scan of a sheet with one cell per address: a
    cell has an entry in [formulas] if and only if its content is a text
    that begins with [=], and the entry holds its raw text; any other
    non-empty cell has no entry in [formulas] and its raw value is what
    [values] holds for it. *)
Theorem formula_iff_leading_equals w sheet_name sh st F V st' :
  scan_rows w sheet_name (iter_rows sh) ([], []) st = (Ok (F, V), st') ->
  NoDup (addrs (cells sh)) ->
  forall c, In c (cells sh) ->
    (In (cell_addr c) (keys F) <->
     exists s, value c = VStr s /\ startswith s "=" = true) /\
    (is_formula (value c) = true ->
     dict_get (cell_addr c) F = Some (value c)) /\
    (non_empty (value c) -> is_formula (value c) = false ->
     dict_get (cell_addr c) F = None /\
     dict_get (cell_addr c) V = Some (value c)).
Proof.
  rewrite scan_rows_concat. fold (cells sh). intros Hscan Hnd c Hin.
  destruct (scan_get _ _ _ _ _ _ _ _ _ Hscan Hnd) as (Hform & Hlit & _).
  rewrite <- is_formula_spec.
  split; [|split].
  - destruct (is_formula (value c)) eqn:Hf.
    + destruct (Hform c Hin Hf) as [HF _].
      split; auto. intros _. apply dict_get_keys. eauto.
    + destruct (Hlit c Hin Hf) as [HF _]. simpl in HF.
      split; [|discriminate]. intros Hk. apply dict_get_keys in Hk as [v Hv].
      congruence.
  - intros Hf. now destruct (Hform c Hin Hf).
  - intros Hne Hf. destruct (Hlit c Hin Hf) as (HF & HV & _). auto.
Qed.

Lemma formula_iff_leading_equals_witness :
  (In "C1" ["C1"; "A2"] <->
   exists s, VStr "=TAN(B1)" = VStr s /\ startswith s "=" = true) /\
  dict_get "B1" [("A1", VStr "Tank Diameter"); ("B1", VInt 12); ("C1", VInt 24);
                 ("A2", VNone)] = Some (VInt 12).
Proof.
  assert (Hnd : NoDup (addrs (cells Samples.sheet1))).
  { repeat constructor; simpl; intuition discriminate. }
  pose proof (formula_iff_leading_equals Samples.readable "Sheet1"
                Samples.sheet1 init_state _ _ _ eq_refl Hnd) as H.
  split.
  - refine (proj1 (H Samples.tan_cell _)). simpl; auto.
  - refine (proj2 (proj2 (proj2 (H Samples.number_cell _)) eq_refl eq_refl)).
    simpl; auto.
Defined.

(** ** The two dicts together *)

(** C10.  After a completed scan of a sheet, every key of [formulas] is a
    key of [values]; so the test [addr in values] of the printing loop
    always succeeds and each formula is printed with a value line after
    it.  With one cell per address, what [values] holds for a formula cell
    is the value looked up in the values-only view (possibly [None]). *)
Theorem formulas_have_value_entries w sheet_name sh st F V st' :
  scan_rows w sheet_name (iter_rows sh) ([], []) st = (Ok (F, V), st') ->
  incl (keys F) (keys V) /\
  (forall item, In item F ->
     exists v, dict_get (fst item) V = Some v /\
               formula_entry V item = [key_line item; value_line v]) /\
  (forall st0, print_formulas F V st0 = (Ok tt, emit (formula_lines F V) st0)) /\
  (NoDup (addrs (cells sh)) ->
   forall c, In c (cells sh) -> is_formula (value c) = true ->
     exists k wbd sd,
       load_workbook w k true = Some wbd /\
       find_sheet sheet_name wbd = Some sd /\
       dict_get (cell_addr c) V = Some (value_at sd (cell_addr c))).
Proof.
  rewrite scan_rows_concat. fold (cells sh). intros Hscan.
  assert (Hincl : incl (keys F) (keys V)).
  { apply (scan_subset _ _ _ _ _ _ _ _ _ Hscan). intros a []. }
  split; [exact Hincl|]. split; [|split].
  - intros [a f] Hin.
    assert (Ha : In a (keys V)).
    { apply Hincl. change a with (fst (a, f)). now apply in_map. }
    apply dict_get_keys in Ha as [v Hv]. exists v.
    unfold formula_entry. simpl. now rewrite Hv.
  - intros st0. apply print_formulas_run.
  - intros Hnd c Hin Hf.
    destruct (scan_get _ _ _ _ _ _ _ _ _ Hscan Hnd) as (Hform & _).
    now destruct (Hform c Hin Hf).
Qed.

Lemma formulas_have_value_entries_witness :
  incl ["C1"; "A2"] ["A1"; "B1"; "C1"; "A2"].
Proof.
  exact (proj1 (formulas_have_value_entries Samples.readable "Sheet1"
                  Samples.sheet1 init_state _ _ _ eq_refl)).
Defined.

(** ** Order *)

Lemma run_Ok_sections {L : StrLower} w st :
  run w = (Ok tt, st) ->
  exists wbf secs,
    load_workbook w 0 false = Some wbf /\
    Forall2 (section_of w wbf) (sheetnames wbf) secs /\
    stdout st = (PSheets (sheetnames wbf) :: separator :: List.concat secs)%list.
Proof.
  unfold run. rewrite script_eq. simpl loads.
  destruct (load_workbook w 0 false) as [wbf|]; [|discriminate].
  destruct (for_each _ _ _ _) as [[u|e] st1] eqn:Hloop; [|discriminate].
  intros H. injection H as <-. destruct u.
  apply sheets_loop_Ok in Hloop as (secs & Hsecs & Hout).
  exists wbf, secs. repeat split; auto.
Qed.

(** C9.  The two nested loops are one pass over the cells of the rows
    taken one row after the other.  After a completed scan of a sheet with
    one cell per address, the keys of [values] are the addresses of the
    non-empty cells and the keys of [formulas] those of the formula cells,
    each once and in row-major order, and exactly one load was made per
    formula cell.  A completed run printed the sheet list, then one section
    per sheet name in the order of [wb.sheetnames]. *)
Theorem row_major_scan_and_sheet_order {L : StrLower} w :
  (forall sheet_name rows d st,
     scan_rows w sheet_name rows d st =
     for_each (List.concat rows) (scan_cell w sheet_name) d st) /\
  (forall sheet_name sh st F V st',
     scan_rows w sheet_name (iter_rows sh) ([], []) st = (Ok (F, V), st') ->
     NoDup (addrs (cells sh)) ->
     keys F = addrs (filter (fun c => is_formula (value c)) (cells sh)) /\
     keys V = addrs (filter (fun c => not_in_empty_or_None (value c)) (cells sh)) /\
     loads st' =
       (loads st + List.length (filter (fun c => is_formula (value c)) (cells sh)))%nat) /\
  (forall st,
     run w = (Ok tt, st) ->
     exists wbf secs,
       load_workbook w 0 false = Some wbf /\
       Forall2 (section_of w wbf) (sheetnames wbf) secs /\
       stdout st = (PSheets (sheetnames wbf) :: separator :: List.concat secs)%list).
Proof.
  split; [|split].
  - intros. apply scan_rows_concat.
  - intros sheet_name sh st F V st'. rewrite scan_rows_concat. fold (cells sh).
    intros Hscan Hnd.
    apply (scan_order _ _ _ _ _ _ _ _ _ Hscan Hnd). simpl. tauto.
  - apply run_Ok_sections.
Qed.

Lemma row_major_scan_and_sheet_order_witness :
  ["A1"; "B1"; "C1"; "A2"] =
    addrs (filter (fun c => not_in_empty_or_None (value c)) (cells Samples.sheet1)) /\
  exists wbf secs,
    load_workbook Samples.readable 0 false = Some wbf /\
    Forall2 (section_of Samples.readable wbf) (sheetnames wbf) secs /\
    stdout (snd (run Samples.readable)) =
      (PSheets (sheetnames wbf) :: separator :: List.concat secs)%list.
Proof.
  destruct (row_major_scan_and_sheet_order Samples.readable) as (_ & H2 & H3).
  split.
  - refine (proj1 (proj2 (H2 "Sheet1" Samples.sheet1 init_state _ _ _ eq_refl _))).
    repeat constructor; simpl; intuition discriminate.
  - exact (H3 _ eq_refl).
Defined.

(** ** Failing runs *)

(** C2, as amended.  If the workbook cannot be opened when the run starts,
    the run fails with [SourceUnavailable] and has printed nothing.  A run
    that fails after the workbook was opened (a later load of the
    values-only view failing) has printed the sheet list, the sections of
    the sheets that came before the failing one, and the header of the
    failing one. *)
Theorem failing_run_output {L : StrLower} w :
  (load_workbook w 0 false = None ->
   run w = (Raise SourceUnavailable, mkState [] 1 [] [])) /\
  (forall e st,
     run w = (Raise e, st) ->
     match load_workbook w 0 false with
     | None => e = SourceUnavailable /\ stdout st = []
     | Some wbf =>
         exists done n rest secs,
           sheetnames wbf = (done ++ n :: rest)%list /\
           Forall2 (section_of w wbf) done secs /\
           stdout st =
             (PSheets (sheetnames wbf) :: separator
              :: List.concat secs
              ++ [PText ("SHEET: " ++ n); PText (str_mul "-" 30)])%list
     end).
Proof.
  unfold run. rewrite script_eq. simpl loads.
  destruct (load_workbook w 0 false) as [wbf|].
  - split; [discriminate|]. intros e st.
    destruct (for_each _ _ _ _) as [[u|e'] st1] eqn:Hloop; [discriminate|].
    intros H. injection H as <- <-.
    apply sheets_loop_Raise in Hloop
      as (done & n & rest & secs & tail & Hn & Hsecs & Hout & Ht).
    exists done, n, rest, secs. repeat split; auto.
    destruct (lookup_sheetnames n wbf) as [sh Hsh].
    { rewrite Hn. apply in_or_app. right. now left. }
    rewrite Hsh in Ht. subst tail. exact Hout.
  - split; [reflexivity|]. intros e st H. injection H as <- <-. auto.
Qed.

Lemma failing_run_output_witness :
  run Samples.missing = (Raise SourceUnavailable, mkState [] 1 [] []) /\
  exists done n rest secs,
    sheetnames Samples.book = (done ++ n :: rest)%list /\
    Forall2 (section_of Samples.lost_midway Samples.book) done secs /\
    stdout (snd (run Samples.lost_midway)) =
      (PSheets (sheetnames Samples.book) :: separator
       :: List.concat secs
       ++ [PText ("SHEET: " ++ n); PText (str_mul "-" 30)])%list.
Proof.
  split.
  - apply (proj1 (failing_run_output Samples.missing)). reflexivity.
  - exact (proj2 (failing_run_output Samples.lost_midway) SourceUnavailable _ eq_refl).
Defined.

(** C2 as stated fails: the file vanishes after the first load; the run
    fails with [SourceUnavailable] at the first formula cell of the second
    sheet, after the whole section of the first sheet, with its
    keyword-matched entry, was printed. *)
Lemma failing_run_partial_output :
  fst (run Samples.lost_midway) = Raise SourceUnavailable /\
  stdout (snd (run Samples.lost_midway)) =
    (PSheets ["Notes"; "Sheet1"] :: separator
     :: section_lines "Notes" ([], [("A1", VStr "Total length")])
     ++ [PText "SHEET: Sheet1"; PText (str_mul "-" 30)])%list /\
  In (key_line ("A1", VStr "Total length")) (stdout (snd (run Samples.lost_midway))).
Proof.
  split; [reflexivity|]. split; [reflexivity|].
  vm_compute. tauto.
Qed.

(** ** Handles *)

(** C4, as amended.  On a run that completes, the handle of the workbook
    opened first is closed when the script exits. *)
Theorem primary_handle_closed_on_success {L : StrLower} w st :
  run w = (Ok tt, st) ->
  In 0%nat (acquired st) /\ In 0%nat (closed st).
Proof.
  unfold run. rewrite script_eq. simpl loads.
  destruct (load_workbook w 0 false) as [wbf|]; [|discriminate].
  destruct (for_each _ _ _ _) as [[u|e'] st1] eqn:Hloop; [|discriminate].
  intros H. injection H as <-. simpl.
  apply sheets_loop_extends in Hloop as (_ & Hc & [hs Ha]).
  simpl in Hc, Ha. rewrite Hc, Ha. simpl. auto.
Qed.

Lemma primary_handle_closed_on_success_witness :
  In 0%nat (acquired (snd (run Samples.readable))) /\
  In 0%nat (closed (snd (run Samples.readable))).
Proof.
  apply (primary_handle_closed_on_success Samples.readable). reflexivity.
Defined.

(** C4 as stated fails twice.  On the completed run over the readable
    file, the handles 1 and 2 of the values-only views are acquired and
    never closed.  On the run that loses the file midway, the handle 0 of
    the workbook itself is acquired and not closed when the run ends. *)
Lemma handles_left_open :
  (fst (run Samples.readable) = Ok tt /\
   acquired (snd (run Samples.readable)) = [0; 1; 2]%nat /\
   closed (snd (run Samples.readable)) = [0]%nat) /\
  (fst (run Samples.lost_midway) = Raise SourceUnavailable /\
   acquired (snd (run Samples.lost_midway)) = [0]%nat /\
   closed (snd (run Samples.lost_midway)) = []).
Proof. repeat split. Qed.

(** ** Formulas without a cached value *)

(** C3.  The file stays readable and unmodified during the run, it holds
    worksheets only (no chartsheet, in either view) and the values-only
    view has every sheet of the formula view.  Then the run completes; and
    for a formula cell of a scanned sheet (one cell per address) whose
    value in the values-only view is [None], the report has the line of the
    formula followed by the line [-> Value: None]. *)
Theorem missing_resolved_value_is_reported {L : StrLower} w wbf wbd sh sd c s :
  stable w wbf wbd ->
  chartsheets wbf = [] -> chartsheets wbd = [] ->
  incl (sheetnames wbf) (sheetnames wbd) ->
  find_sheet (title sh) wbf = Some sh ->
  find_sheet (title sh) wbd = Some sd ->
  NoDup (addrs (cells sh)) ->
  In c (cells sh) ->
  value c = VStr s -> startswith s "=" = true ->
  value_at sd (cell_addr c) = VNone ->
  exists st,
    run w = (Ok tt, st) /\
    infix [PText ("  " ++ cell_addr c ++ ": " ++ s); PText "       -> Value: None"]
          (stdout st).
Proof.
  intros Hst Hcf Hcd Hincl Hf Hd Hnd Hin Hv Hs Hnone.
  destruct (script_stable_Ok wbf wbd w init_state Hst Hcf Hcd Hincl) as [st Hrun].
  exists st. split; [exact Hrun|].
  destruct (run_Ok_sections w st Hrun) as (wbf' & secs & Hl & Hsecs & ->).
  destruct (Hst 0%nat) as [Hl' _]. rewrite Hl' in Hl. injection Hl as <-.
  assert (Hname : In (title sh) (sheetnames wbf)).
  { apply find_sheet_Some in Hf as [Hf _].
    exact (in_map sheet_title _ _ Hf). }
  destruct (Forall2_In_l _ _ _ _ Hsecs Hname)
    as (sec & Hsec & sh' & [F V] & st1 & st2 & Hf' & Hscan & ->).
  rewrite Hf in Hf'. injection Hf' as <-.
  rewrite scan_rows_concat in Hscan. fold (cells sh) in Hscan.
  destruct (scan_get _ _ _ _ _ _ _ _ _ Hscan Hnd) as (Hform & _).
  assert (Hfc : is_formula (value c) = true) by (rewrite Hv; exact Hs).
  destruct (Hform c Hin Hfc) as (HF & k & wbd' & sd' & Hk & Hsd & HV).
  destruct (Hst k) as [_ Hk']. rewrite Hk' in Hk. injection Hk as <-.
  rewrite Hd in Hsd. injection Hsd as <-.
  rewrite Hnone in HV. rewrite Hv in HF. apply dict_get_In in HF.
  apply infix_cons, infix_cons. apply (infix_concat _ _ _ Hsec).
  unfold section_lines. simpl fst. simpl snd.
  apply infix_app_l, infix_app_l, infix_app_l, infix_app_r.
  pose proof (infix_flat_map (formula_entry V) _ _ HF) as Hfm.
  unfold formula_entry in Hfm at 1. simpl fst in Hfm. rewrite HV in Hfm.
  exact Hfm.
Qed.

Lemma missing_resolved_value_is_reported_witness :
  exists st,
    run Samples.readable = (Ok tt, st) /\
    infix [PText "  A2: =B1*2"; PText "       -> Value: None"] (stdout st).
Proof.
  apply (missing_resolved_value_is_reported Samples.readable Samples.book
           Samples.book_data Samples.sheet1 Samples.sheet1_data
           Samples.pending_cell "=B1*2").
  - intros k. split; reflexivity.
  - reflexivity.
  - reflexivity.
  - intros a Ha. exact Ha.
  - reflexivity.
  - reflexivity.
  - repeat constructor; simpl; intuition discriminate.
  - simpl; auto 10.
  - reflexivity.
  - reflexivity.
  - reflexivity.
Defined.

(** ** Determinism *)

(** C8.  The report is a function of the content of the file: two runs of
    the script over the same unmodified file, started at any two moments
    and in any two states with the same output so far (in particular one
    run after the other), end the same way and have printed the same. *)
Theorem same_file_same_report {L : StrLower} wbf wbd w1 w2 st1 st2 :
  stable w1 wbf wbd -> stable w2 wbf wbd ->
  stdout st1 = stdout st2 ->
  fst (script w1 st1) = fst (script w2 st2) /\
  stdout (snd (script w1 st1)) = stdout (snd (script w2 st2)).
Proof.
  intros H1 H2 Hout. rewrite !script_eq.
  destruct (H1 (loads st1)) as [-> _]. destruct (H2 (loads st2)) as [-> _].
  match goal with
  | |- context [for_each _ (fun n _ => analyze_sheet w1 wbf n) tt ?s1] =>
      match goal with
      | |- context [for_each _ (fun n _ => analyze_sheet w2 wbf n) tt ?s2] =>
          assert (Hs : stdout s1 = stdout s2) by (simpl; now rewrite Hout);
          destruct (sheets_loop_stable wbf wbd w1 w2 (sheetnames wbf) H1 H2 s1 s2 Hs)
            as [Hr Ho]
      end
  end.
  cbv zeta in Hr, Ho.
  destruct (for_each _ (fun n _ => analyze_sheet w1 wbf n) tt _) as [[[]|e1] t1],
           (for_each _ (fun n _ => analyze_sheet w2 wbf n) tt _) as [[[]|e2] t2];
    simpl in Hr, Ho; try discriminate; simpl; auto.
Qed.

Lemma same_file_same_report_witness :
  fst (script Samples.readable
         (mkState [] 3 [0; 1; 2]%nat [0%nat])) = fst (run Samples.readable) /\
  stdout (snd (script Samples.readable (mkState [] 3 [0; 1; 2]%nat [0%nat])))
  = stdout (snd (run Samples.readable)).
Proof.
  apply (same_file_same_report Samples.book Samples.book_data
           Samples.readable Samples.readable).
  - intros k. split; reflexivity.
  - intros k. split; reflexivity.
  - reflexivity.
Defined.


(** * Further properties of the script *)

(** ** Loads and handles *)

Section Counting.

Context {L : StrLower}.
Variable w : World.

(** A completed scan made one load per formula cell and kept each handle. *)
Lemma scan_counts sheet_name cs : forall d st d' st',
  for_each cs (scan_cell w sheet_name) d st = (Ok d', st') ->
  loads st' = (loads st + List.length (formula_cells cs))%nat /\
  acquired st' =
    (acquired st ++ seq (loads st) (List.length (formula_cells cs)))%list /\
  closed st' = closed st /\ stdout st' = stdout st.
Proof.
  induction cs as [|c cs IH]; intros d st d' st' H.
  - simpl in H. unfold ret in H. injection H as <- <-. simpl.
    rewrite Nat.add_0_r, app_nil_r. auto.
  - apply scan_cons_Ok in H as (k0 & F1 & V1 & st1 & Hstep & Hrest).
    apply IH in Hrest as (HL & HA & HC & HO).
    unfold formula_cells in *. simpl filter.
    inversion Hstep as [wbd sd Hf Hl Hs | Hf He | He]; subst.
    + rewrite Hf. simpl in *. rewrite HL, HA, <- app_assoc. simpl.
      repeat split; auto; lia.
    + rewrite Hf. auto.
    + assert (Hf : is_formula (value c) = false).
      { destruct (is_formula (value c)) eqn:E; auto.
        apply is_formula_non_empty in E. unfold non_empty in E. congruence. }
      rewrite Hf. auto.
Qed.

Lemma analyze_sheet_counts wb sheet_name st st' :
  analyze_sheet w wb sheet_name st = (Ok tt, st') ->
  loads st' = (loads st + sheet_formula_count wb sheet_name)%nat /\
  acquired st' =
    (acquired st ++ seq (loads st) (sheet_formula_count wb sheet_name))%list /\
  closed st' = closed st.
Proof.
  rewrite analyze_sheet_eq. unfold sheet_formula_count.
  destruct (find_sheet sheet_name wb) as [sh|];
    [|destruct (find_chart sheet_name wb); discriminate].
  rewrite scan_rows_concat. fold (cells sh).
  destruct (for_each _ _ _ _) as [[d|e] st1] eqn:Hs; [|discriminate].
  intros H. injection H as <-.
  apply scan_counts in Hs as (HL & HA & HC & _). simpl in *. auto.
Qed.

Lemma sheets_loop_counts wb names : forall st st',
  for_each names (fun n (_ : unit) => analyze_sheet w wb n) tt st = (Ok tt, st') ->
  let n := list_sum (map (sheet_formula_count wb) names) in
  loads st' = (loads st + n)%nat /\
  acquired st' = (acquired st ++ seq (loads st) n)%list /\
  closed st' = closed st.
Proof.
  induction names as [|x names IH]; intros st st' H.
  - simpl in H. unfold ret in H. injection H as <-. simpl.
    rewrite Nat.add_0_r, app_nil_r. auto.
  - cbn [for_each] in H. apply bind_Ok in H as ([] & st1 & Ha & Hrest).
    apply analyze_sheet_counts in Ha as (HL & HA & HC).
    apply IH in Hrest as (HL' & HA' & HC'). cbv zeta in *.
    simpl map. simpl list_sum. rewrite HL', HA', HC', HL, HA, HC.
    rewrite seq_app, <- app_assoc. repeat split; auto. lia.
Qed.

End Counting.

(** X1.  A run that completes loaded the file once for the workbook and
    once more for every formula cell it met; the handles are numbered in
    the order of the loads, all of them were acquired and only the first
    one, the workbook of the scan, was closed. *)
Theorem completed_run_loads {L : StrLower} w st :
  run w = (Ok tt, st) ->
  exists wbf,
    load_workbook w 0 false = Some wbf /\
    loads st = S (formula_count wbf) /\
    acquired st = seq 0 (loads st) /\
    closed st = [0%nat].
Proof.
  unfold run. rewrite script_eq. simpl loads.
  destruct (load_workbook w 0 false) as [wbf|]; [|discriminate].
  destruct (for_each _ _ _ _) as [[u|e] st1] eqn:Hloop; [|discriminate].
  intros H. injection H as <-. destruct u.
  apply sheets_loop_counts in Hloop as (HL & HA & HC). cbv zeta in *.
  simpl in HL, HA, HC. exists wbf. simpl. fold (formula_count wbf) in *.
  rewrite HL, HA, HC. auto.
Qed.

Lemma completed_run_loads_witness :
  exists wbf,
    load_workbook Samples.readable 0 false = Some wbf /\
    loads (snd (run Samples.readable)) = S (formula_count wbf) /\
    acquired (snd (run Samples.readable)) = seq 0 (loads (snd (run Samples.readable))) /\
    closed (snd (run Samples.readable)) = [0%nat].
Proof.
  apply (completed_run_loads Samples.readable). reflexivity.
Defined.

(** X2.  A run that fails closes nothing: every handle it acquired, the
    workbook of the scan included, is open when it ends. *)
Theorem failing_run_closes_nothing {L : StrLower} w e st :
  run w = (Raise e, st) ->
  closed st = [] /\
  (forall wbf, load_workbook w 0 false = Some wbf -> In 0%nat (acquired st)).
Proof.
  unfold run. rewrite script_eq. simpl loads.
  destruct (load_workbook w 0 false) as [wbf|].
  - destruct (for_each _ _ _ _) as [[u|e'] st1] eqn:Hloop; [discriminate|].
    intros H. injection H as <- <-.
    apply sheets_loop_extends in Hloop as (_ & Hc & [hs Ha]).
    simpl in Hc, Ha. rewrite Hc, Ha. simpl. auto.
  - intros H. injection H as <- <-. simpl. split; [reflexivity | discriminate].
Qed.

Lemma failing_run_closes_nothing_witness :
  closed (snd (run Samples.lost_midway)) = [] /\
  (forall wbf, load_workbook Samples.lost_midway 0 false = Some wbf ->
               In 0%nat (acquired (snd (run Samples.lost_midway)))).
Proof.
  apply (failing_run_closes_nothing Samples.lost_midway SourceUnavailable).
  reflexivity.
Defined.

(** ** Where and how a run can fail *)

Section Failure.

Context {L : StrLower}.
Variable w : World.



End Failure.



(** ** Sheets without formulas, sheets without content *)

Section NoFormula.

Context {L : StrLower}.
Variable w : World.

Lemma scan_no_formula sheet_name cs :
  (forall c, In c cs -> is_formula (value c) = false) ->
  forall d st, exists V',
    for_each cs (scan_cell w sheet_name) d st = (Ok (fst d, V'), st).
Proof.
  induction cs as [|c cs IH]; intros Hno [F V] st.
  - simpl. unfold ret. eauto.
  - cbn [for_each]. unfold bind, scan_cell.
    rewrite (Hno c (or_introl eq_refl)).
    destruct (IH (fun c' Hc' => Hno c' (or_intror Hc')) (F, V) st) as [V1 H1].
    destruct (IH (fun c' Hc' => Hno c' (or_intror Hc'))
                (F, dict_set (cell_addr c) (value c) V) st) as [V2 H2].
    destruct (is_not_None (value c)); [|unfold ret; eauto].
    destruct (not_in_empty_or_None (value c)); unfold ret; eauto.
Qed.

Lemma scan_all_empty sheet_name cs :
  (forall c, In c cs -> not_in_empty_or_None (value c) = false) ->
  forall d st, for_each cs (scan_cell w sheet_name) d st = (Ok d, st).
Proof.
  induction cs as [|c cs IH]; intros Hno [F V] st.
  - reflexivity.
  - cbn [for_each]. unfold bind, scan_cell.
    pose proof (Hno c (or_introl eq_refl)) as He.
    assert (Hf : is_formula (value c) = false).
    { destruct (is_formula (value c)) eqn:E; auto.
      apply is_formula_non_empty in E. unfold non_empty in E. congruence. }
    rewrite Hf, He.
    destruct (is_not_None (value c)); unfold ret;
      apply IH; intros c' Hc'; apply Hno; now right.
Qed.

Lemma sheets_loop_no_formula wb names :
  chartsheets wb = [] ->
  incl names (sheetnames wb) ->
  (forall sh c, In (Worksheet sh) wb -> In c (cells sh) ->
                is_formula (value c) = false) ->
  forall st, exists out,
    for_each names (fun n (_ : unit) => analyze_sheet w wb n) tt st
    = (Ok tt, emit out st).
Proof.
  intros Hcs Hincl Hno. induction names as [|x names IH]; intros st.
  - exists []. simpl. unfold ret. now rewrite emit_nil.
  - cbn [for_each]. unfold bind. rewrite analyze_sheet_eq.
    destruct (find_sheet_sheetnames x wb Hcs) as [sh Hsh]; [apply Hincl; now left|].
    rewrite Hsh, scan_rows_concat. fold (cells sh).
    apply find_sheet_Some in Hsh as [Hin _].
    match goal with
    | |- context [for_each (cells sh) ?b ?d ?s] =>
        destruct (scan_no_formula x (cells sh) (fun c Hc => Hno sh c Hin Hc) d s)
          as [V' ->]
    end.
    rewrite emit_emit.
    match goal with
    | |- context [emit ?l st] =>
        destruct (IH (fun y Hy => Hincl y (or_intror Hy)) (emit l st)) as [out ->]
    end.
    rewrite emit_emit. eauto.
Qed.

End NoFormula.

(** X4.  A workbook of worksheets only (no chartsheet) and without formula
    cells is loaded once and never again: once it is open, the run
    completes whatever becomes of the file, and no handle is left open. *)
Theorem no_formula_run_completes {L : StrLower} w wbf :
  load_workbook w 0 false = Some wbf ->
  chartsheets wbf = [] ->
  (forall sh c, In (Worksheet sh) wbf -> In c (cells sh) ->
                is_formula (value c) = false) ->
  exists st,
    run w = (Ok tt, st) /\
    loads st = 1%nat /\ acquired st = [0%nat] /\ closed st = [0%nat].
Proof.
  intros Hl Hcs Hno. unfold run. rewrite script_eq. simpl loads. rewrite Hl.
  match goal with
  | |- context [for_each ?ns ?b tt ?s] =>
      destruct (sheets_loop_no_formula w wbf ns Hcs (incl_refl _) Hno s)
        as [out ->]
  end.
  eexists. split; [reflexivity|]. simpl. auto.
Qed.

Lemma no_formula_run_completes_witness :
  exists st,
    run (vanishing_world 1 [Worksheet Samples.notes] []) = (Ok tt, st) /\
    loads st = 1%nat /\ acquired st = [0%nat] /\ closed st = [0%nat].
Proof.
  apply (no_formula_run_completes
           (vanishing_world 1 [Worksheet Samples.notes] [])
           [Worksheet Samples.notes]).
  - reflexivity.
  - reflexivity.
  - intros sh c [E|[]]. injection E as <-. intros [<-|[]]. reflexivity.
Defined.

(** X5.  A sheet whose cells are all absent or empty (and a sheet without
    cells) needs no load and gets a section with the two headings and no
    entry. *)
Theorem empty_sheet_section {L : StrLower} w wb sheet_name sh st :
  find_sheet sheet_name wb = Some sh ->
  (forall c, In c (cells sh) -> not_in_empty_or_None (value c) = false) ->
  analyze_sheet w wb sheet_name st =
  (Ok tt,
   emit [PText ("SHEET: " ++ sheet_name); PText (str_mul "-" 30);
         PText (nl ++ "Key Input/Output cells:");
         PText (nl ++ "Key Formulas:"); separator] st).
Proof.
  intros Hf He. rewrite analyze_sheet_eq, Hf, scan_rows_concat.
  fold (cells sh). rewrite (scan_all_empty w sheet_name (cells sh) He).
  rewrite emit_emit. reflexivity.
Qed.

Lemma empty_sheet_section_witness :
  analyze_sheet Samples.missing
    [Worksheet (mkSheet "Blank" [[Samples.blank_cell; Samples.absent_cell]; []])]
    "Blank" init_state =
  (Ok tt,
   emit [PText ("SHEET: " ++ "Blank"); PText (str_mul "-" 30);
         PText (nl ++ "Key Input/Output cells:");
         PText (nl ++ "Key Formulas:"); separator] init_state).
Proof.
  apply (empty_sheet_section Samples.missing
           [Worksheet (mkSheet "Blank" [[Samples.blank_cell; Samples.absent_cell]; []])]
           "Blank"
           (mkSheet "Blank" [[Samples.blank_cell; Samples.absent_cell]; []])).
  - reflexivity.
  - intros c [<-|[<-|[]]]; reflexivity.
Defined.

(** ** The dicts of a sheet, in closed form *)

Lemma dict_set_new {V : Type} k (v : V) d :
  ~ In k (keys d) -> dict_set k v d = (d ++ [(k, v)])%list.
Proof.
  induction d as [|[k' v'] d IH]; simpl; intros Hn; auto.
  destruct (String.eqb_spec k k') as [->|Hk].
  - exfalso; auto.
  - f_equal. apply IH. tauto.
Qed.

Lemma keys_app {V : Type} (d1 d2 : dict V) :
  keys (d1 ++ d2)%list = (keys d1 ++ keys d2)%list.
Proof. apply map_app. Qed.

Lemma scan_closed_form w wbf wbd sheet_name sd cs :
  stable w wbf wbd -> find_sheet sheet_name wbd = Some sd ->
  forall F V st,
    NoDup (addrs cs) ->
    (forall a, In a (addrs cs) -> ~ In a (keys F) /\ ~ In a (keys V)) ->
    exists st',
      for_each cs (scan_cell w sheet_name) (F, V) st =
      (Ok ((F ++ map (fun c => (cell_addr c, value c)) (formula_cells cs))%list,
           (V ++ map (fun c => (cell_addr c, recorded sd c)) (stored_cells cs))%list),
       st').
Proof.
  intros Hst Hsd. unfold formula_cells, stored_cells.
  induction cs as [|c cs IH]; intros F V st Hnd Hfresh.
  - simpl. unfold ret. rewrite !app_nil_r. eauto.
  - simpl in Hnd. apply NoDup_cons_iff in Hnd as [Hnew Hnd].
    destruct (Hfresh (cell_addr c)) as [HnF HnV]; [now left|].
    assert (Hrest : forall F1 V1 : dict Value,
              incl (keys F1) (cell_addr c :: keys F) ->
              incl (keys V1) (cell_addr c :: keys V) ->
              forall a, In a (addrs cs) -> ~ In a (keys F1) /\ ~ In a (keys V1)).
    { intros F1 V1 H1 H2 a Ha. destruct (Hfresh a) as [H3 H4]; [now right|].
      assert (a <> cell_addr c) by congruence.
      split; intros Hin; [apply H1 in Hin | apply H2 in Hin];
        destruct Hin; auto. }
    assert (Hsnoc : forall d : dict Value,
              incl (keys (d ++ [(cell_addr c, value c)])%list) (cell_addr c :: keys d) /\
              forall v, incl (keys (d ++ [(cell_addr c, v)])%list) (cell_addr c :: keys d)).
    { intros d. split; [|intros v]; rewrite keys_app; intros a Ha;
        apply in_app_or in Ha as [Ha|[<-|[]]]; simpl; auto. }
    cbn [for_each]. simpl filter.
    destruct (is_formula (value c)) eqn:Hf.
    + pose proof (is_formula_non_empty _ Hf) as He. unfold non_empty in He.
      rewrite He. destruct (Hst (loads st)) as [_ Hl].
      rewrite (bind_Ok_intro _ _ _ _ _
                 (cell_step_scan_cell w sheet_name c F V st _ _ _
                    (step_formula w sheet_name c F V st wbd sd Hf Hl Hsd))).
      rewrite !dict_set_new by assumption.
      match goal with
      | |- context [for_each cs _ (?F1, ?V1) ?s1] =>
          destruct (IH F1 V1 s1 Hnd) as [st' ->]
      end.
      * apply Hrest; apply Hsnoc.
      * assert (Hrec : recorded sd c = value_at sd (cell_addr c))
          by (unfold recorded; now rewrite Hf).
        cbn [map]. rewrite Hrec, <- !app_assoc. simpl. eauto.
    + destruct (not_in_empty_or_None (value c)) eqn:He.
      * rewrite (bind_Ok_intro _ _ _ _ _
                   (cell_step_scan_cell w sheet_name c F V st _ _ _
                      (step_literal w sheet_name c F V st Hf He))).
        rewrite dict_set_new by assumption.
        match goal with
        | |- context [for_each cs _ (?F1, ?V1) ?s1] =>
            destruct (IH F1 V1 s1 Hnd) as [st' ->]
        end.
        -- apply Hrest; [apply incl_tl, incl_refl | apply Hsnoc].
        -- assert (Hrec : recorded sd c = value c)
             by (unfold recorded; now rewrite Hf).
           cbn [map]. rewrite Hrec, <- !app_assoc. simpl. eauto.
      * rewrite (bind_Ok_intro _ _ _ _ _
                   (cell_step_scan_cell w sheet_name c F V st _ _ _
                      (step_skip w sheet_name c F V st He))).
        apply IH; auto. apply Hrest; apply incl_tl, incl_refl.
Qed.

Lemma filter_map_swap {A B : Type} (p : B -> bool) (f : A -> B) l :
  filter p (map f l) = map f (filter (fun x => p (f x)) l).
Proof.
  induction l as [|x l IH]; simpl; auto.
  destruct (p (f x)); simpl; now rewrite IH.
Qed.

(** X6.  For a file that stays readable and unmodified and a sheet with
    one cell per address, the scan completes and its dicts are, in
    row-major order: in [formulas], each formula cell with its text; in
    [values], each non-empty cell with its own value if it is a literal
    and with the value at its address in the values-only view if it is a
    formula.  The keyword-matched set is [values] restricted to the texts
    that contain a keyword. *)
Theorem scan_dicts_closed_form {L : StrLower} w wbf wbd sheet_name sh sd st :
  stable w wbf wbd ->
  find_sheet sheet_name wbd = Some sd ->
  NoDup (addrs (cells sh)) ->
  exists F V st',
    scan_rows w sheet_name (iter_rows sh) ([], []) st = (Ok (F, V), st') /\
    F = map (fun c => (cell_addr c, value c)) (formula_cells (cells sh)) /\
    V = map (fun c => (cell_addr c, recorded sd c)) (stored_cells (cells sh)) /\
    keyword_matched V =
      map (fun c => (cell_addr c, recorded sd c))
          (filter (fun c => is_keyword_text (recorded sd c)) (stored_cells (cells sh))).
Proof.
  intros Hst Hsd Hnd. rewrite scan_rows_concat. fold (cells sh).
  destruct (scan_closed_form w wbf wbd sheet_name sd (cells sh) Hst Hsd [] [] st Hnd)
    as [st' H].
  { simpl. tauto. }
  simpl in H. do 3 eexists. split; [exact H|].
  repeat split. unfold keyword_matched.
  exact (filter_map_swap (fun item : string * Value => is_keyword_text (snd item))
           (fun c => (cell_addr c, recorded sd c)) _).
Qed.

Lemma scan_dicts_closed_form_witness :
  exists F V st',
    scan_rows Samples.readable "Sheet1" (iter_rows Samples.sheet1) ([], []) init_state
    = (Ok (F, V), st') /\
    F = map (fun c => (cell_addr c, value c)) (formula_cells (cells Samples.sheet1)) /\
    V = map (fun c => (cell_addr c, recorded Samples.sheet1_data c))
            (stored_cells (cells Samples.sheet1)) /\
    keyword_matched V =
      map (fun c => (cell_addr c, recorded Samples.sheet1_data c))
          (filter (fun c => is_keyword_text (recorded Samples.sheet1_data c))
                  (stored_cells (cells Samples.sheet1))).
Proof.
  apply (scan_dicts_closed_form Samples.readable Samples.book Samples.book_data).
  - intros k. split; reflexivity.
  - reflexivity.
  - repeat constructor; simpl; intuition discriminate.
Defined.

(** ** Keyword matching, on strings *)

Lemma prefix_iff p s :
  String.prefix p s = true <-> exists post, s = p ++ post.
Proof.
  revert s. induction p as [|a p IH]; intros [|b s]; simpl.
  - split; eauto.
  - split; eauto.
  - split; [discriminate | intros [post H]; discriminate].
  - destruct (ascii_dec a b) as [->|Hab].
    + rewrite IH. split; intros [post H]; exists post; [now rewrite H|].
      now injection H.
    + split; [discriminate | intros [post H]; injection H; congruence].
Qed.

Lemma str_in_iff sub s :
  str_in sub s = true <-> exists pre post, s = pre ++ sub ++ post.
Proof.
  induction s as [|c s IH]; cbn [str_in].
  - rewrite orb_false_r, prefix_iff. split.
    + intros [post H]. exists EmptyString, post. exact H.
    + intros (pre & post & H). destruct pre; [eauto | discriminate].
  - rewrite orb_true_iff, prefix_iff, IH. split.
    + intros [[post H]|(pre & post & H)].
      * exists EmptyString, post. exact H.
      * exists (String c pre), post. simpl. now rewrite H.
    + intros (pre & post & H). destruct pre as [|c' pre]; simpl in H.
      * left. eauto.
      * right. injection H as _ H. eauto.
Qed.

Lemma ascii_lower_app a b :
  ascii_lower (a ++ b) = ascii_lower a ++ ascii_lower b.
Proof. induction a as [|c a IH]; simpl; [reflexivity | now rewrite IH]. Qed.

(** X8.  On ASCII text (lowercase taken by [ascii_lower]): a keyword
    written in any capitalisation anywhere inside a text makes the text
    keyword text. *)
Theorem keyword_any_case_anywhere keyword t pre post :
  In keyword keywords -> lower t = keyword ->
  is_keyword_text (VStr (pre ++ t ++ post)) = true.
Proof.
  intros Hin Ht. unfold is_keyword_text. apply existsb_exists.
  exists keyword. split; auto.
  apply str_in_iff. exists (ascii_lower pre), (ascii_lower post).
  change (@lower ascii_text) with ascii_lower in *.
  now rewrite !ascii_lower_app, Ht.
Qed.

Lemma keyword_any_case_anywhere_witness :
  is_keyword_text (VStr ("Plate W" ++ "ID" ++ "TH")) = true.
Proof.
  apply (keyword_any_case_anywhere "id" "ID" "Plate W" "TH").
  - simpl; auto 10.
  - reflexivity.
Defined.

(** ** Addresses *)

Lemma string_of_uint_head d :
  d <> Decimal.Nil ->
  exists ch rest,
    NilEmpty.string_of_uint d = String ch rest /\ is_upper ch = false.
Proof.
  destruct d; intros H; try congruence; simpl; eauto.
Qed.

(** [str(n)] starts with a digit or a minus sign. *)
Lemma str_of_int_head n :
  exists ch rest, str_of_int n = String ch rest /\ is_upper ch = false.
Proof.
  unfold str_of_int. destruct n as [|p|p]; simpl.
  - eauto.
  - pose proof (DecimalPos.Unsigned.to_uint_nonnil p) as Hn.
    unfold NilZero.string_of_uint.
    destruct (string_of_uint_head _ Hn) as (ch & rest & H & Hu).
    destruct (Pos.to_uint p); try congruence; eauto.
  - eauto.
Qed.

Lemma str_of_int_inj n m : str_of_int n = str_of_int m -> n = m.
Proof.
  unfold str_of_int. intros H. apply DecimalZ.to_int_inj.
  assert (Hok : forall z, NilZero.int_of_string (NilZero.string_of_int (Z.to_int z))
                          = Some (Z.to_int z)).
  { intros z. apply NilZero.isi; destruct z; simpl; try discriminate;
      intros E; injection E as E;
      now apply (DecimalPos.Unsigned.to_uint_nonnil p). }
  pose proof (Hok n) as Hn. rewrite H, Hok in Hn. now injection Hn.
Qed.

(** Capital letters followed by a number: both parts can be read back. *)
Lemma addr_split col1 : forall col2 r1 r2,
  column_ok col1 = true -> column_ok col2 = true ->
  col1 ++ str_of_int r1 = col2 ++ str_of_int r2 ->
  col1 = col2 /\ r1 = r2.
Proof.
  induction col1 as [|a col1 IH]; intros [|b col2] r1 r2 H1 H2 H; simpl in *.
  - split; auto. now apply str_of_int_inj.
  - exfalso. destruct (str_of_int_head r1) as (ch & rest & Hr & Hu).
    rewrite Hr in H. injection H as -> _.
    apply andb_true_iff in H2 as [H2 _]. congruence.
  - exfalso. destruct (str_of_int_head r2) as (ch & rest & Hr & Hu).
    rewrite Hr in H. injection H as -> _.
    apply andb_true_iff in H1 as [H1 _]. congruence.
  - injection H as -> H.
    apply andb_true_iff in H1 as [_ H1]. apply andb_true_iff in H2 as [_ H2].
    destruct (IH col2 r1 r2 H1 H2 H) as [-> ->]. auto.
Qed.

(** X9.  The address of a cell tells its column and its row: two cells
    whose column letters are capital letters and whose addresses are equal
    are at the same position. *)
Theorem cell_addr_injective c1 c2 :
  column_ok (column_letter c1) = true ->
  column_ok (column_letter c2) = true ->
  cell_addr c1 = cell_addr c2 ->
  position c1 = position c2.
Proof.
  intros H1 H2 H. unfold position.
  destruct (addr_split _ _ _ _ H1 H2 H) as [-> ->]. reflexivity.
Qed.

Lemma cell_addr_injective_witness :
  position (mkCell "AB" 12 (VInt 1)) = position (mkCell "AB" 12 VNone).
Proof.
  apply (cell_addr_injective (mkCell "AB" 12 (VInt 1)) (mkCell "AB" 12 VNone));
    reflexivity.
Defined.

(** X10.  In a grid whose column letters are capital letters and which
    has one cell per position, the addresses the scan uses as keys are
    pairwise distinct. *)
Theorem distinct_positions_distinct_addrs cs :
  Forall (fun c => column_ok (column_letter c) = true) cs ->
  NoDup (map position cs) ->
  NoDup (addrs cs).
Proof.
  induction cs as [|c cs IH]; simpl; intros Hok Hnd.
  - constructor.
  - apply Forall_cons_iff in Hok as [Hc Hok].
    apply NoDup_cons_iff in Hnd as [Hn Hnd].
    constructor; [|now apply IH].
    intros Hin. apply Hn. apply in_map_iff in Hin as (c' & Heq & Hin).
    rewrite Forall_forall in Hok.
    destruct (addr_split _ _ _ _ (Hok c' Hin) Hc Heq) as [Hcol Hrow].
    apply in_map_iff. exists c'. split; auto.
    unfold position. now rewrite Hcol, Hrow.
Qed.

Lemma distinct_positions_distinct_addrs_witness :
  NoDup (addrs (cells Samples.sheet1)).
Proof.
  apply (distinct_positions_distinct_addrs (cells Samples.sheet1)).
  - repeat constructor.
  - repeat constructor; simpl; intuition discriminate.
Defined.

(** ** The whole report, in closed form *)

Lemma sheetnames_worksheets wb :
  chartsheets wb = [] -> sheetnames wb = map title (worksheets wb).
Proof.
  induction wb as [|[sh|c] wb IH]; simpl; intros H.
  - reflexivity.
  - f_equal. now apply IH.
  - discriminate.
Qed.

Lemma find_sheet_unique wb :
  NoDup (map title (worksheets wb)) ->
  forall sh, In sh (worksheets wb) -> find_sheet (title sh) wb = Some sh.
Proof.
  unfold find_sheet.
  induction (worksheets wb) as [|s l IH]; simpl; intros Hnd sh Hin; [tauto|].
  apply NoDup_cons_iff in Hnd as [Hn Hnd].
  destruct Hin as [->|Hin].
  - now rewrite String.eqb_refl.
  - destruct (String.eqb_spec (title s) (title sh)) as [E|E].
    + exfalso. apply Hn. rewrite E. now apply in_map.
    + now apply IH.
Qed.

Lemma sheets_loop_closed_form {L : StrLower} w wbf wbd :
  stable w wbf wbd ->
  forall shs,
    (forall sh, In sh shs ->
       find_sheet (title sh) wbf = Some sh /\
       (exists sd, find_sheet (title sh) wbd = Some sd) /\
       NoDup (addrs (cells sh))) ->
    forall st, exists st',
      for_each (map title shs) (fun n (_ : unit) => analyze_sheet w wbf n) tt st
      = (Ok tt, st') /\
      stdout st' = (stdout st ++ flat_map (sheet_report wbd) shs)%list.
Proof.
  intros Hst. induction shs as [|sh shs IH]; intros Hall st.
  - exists st. simpl. unfold ret. now rewrite app_nil_r.
  - destruct (Hall sh (or_introl eq_refl)) as (Hf & [sd Hsd] & Hnd).
    simpl map. cbn [for_each]. unfold bind.
    rewrite analyze_sheet_eq, Hf, scan_rows_concat. fold (cells sh).
    match goal with
    | |- context [for_each (cells sh) _ _ ?s] =>
        destruct (scan_closed_form w wbf wbd (title sh) sd (cells sh) Hst Hsd
                    [] [] s Hnd) as [st1 Hscan]
    end.
    { simpl. tauto. }
    cbn [app] in Hscan.
    destruct (for_each (cells sh) _ _ _) as [r s1] eqn:E.
    injection Hscan as -> ->. apply scan_quiet in E as (Hq & _).
    match goal with
    | |- context [for_each (map title shs) _ tt ?s] =>
        destruct (IH (fun x Hx => Hall x (or_intror Hx)) s) as (st' & -> & Hout)
    end.
    exists st'. split; [reflexivity|].
    rewrite Hout. unfold emit at 1. cbn [stdout]. rewrite Hq.
    unfold emit. cbn [stdout flat_map]. unfold sheet_report at 2. rewrite Hsd.
    unfold section_lines, sheet_dicts. cbn [fst snd].
    rewrite <- !app_assoc. cbn [app]. reflexivity.
Qed.

(** X11.  For a file that stays readable and unmodified and holds
    worksheets only (no chartsheet, in either view), whose sheets have
    distinct titles, all present in the values-only view, and one cell per
    address, the run completes and what it printed is [report]: the sheet
    list, then for each sheet in order its section, with the keyword-matched
    stored cells and the formula cells in row-major order. *)
Theorem run_prints_report {L : StrLower} w wbf wbd :
  stable w wbf wbd ->
  chartsheets wbf = [] -> chartsheets wbd = [] ->
  NoDup (sheetnames wbf) ->
  incl (sheetnames wbf) (sheetnames wbd) ->
  (forall sh, In (Worksheet sh) wbf -> NoDup (addrs (cells sh))) ->
  exists st, run w = (Ok tt, st) /\ stdout st = report wbf wbd.
Proof.
  intros Hst Hcf Hcd Hnd Hincl Hcells. unfold run. rewrite script_eq. simpl loads.
  destruct (Hst 0%nat) as [-> _].
  match goal with
  | |- context [for_each _ _ tt ?s] =>
      destruct (sheets_loop_closed_form w wbf wbd Hst (worksheets wbf))
        with (st := s) as (st' & Hloop & Hout)
  end.
  { intros sh Hin. repeat split.
    - apply find_sheet_unique; auto.
      now rewrite <- (sheetnames_worksheets wbf Hcf).
    - apply (find_sheet_sheetnames _ _ Hcd). apply Hincl.
      rewrite (sheetnames_worksheets wbf Hcf). now apply in_map.
    - apply Hcells. now apply In_worksheets. }
  rewrite <- (sheetnames_worksheets wbf Hcf) in Hloop. rewrite Hloop.
  eexists. split; [reflexivity|]. cbn [stdout]. rewrite Hout. reflexivity.
Qed.

Lemma run_prints_report_witness :
  exists st,
    run Samples.readable = (Ok tt, st) /\
    stdout st = report Samples.book Samples.book_data.
Proof.
  apply (run_prints_report Samples.readable Samples.book Samples.book_data).
  - intros k. split; reflexivity.
  - reflexivity.
  - reflexivity.
  - repeat constructor; simpl; intuition discriminate.
  - intros a Ha. exact Ha.
  - intros sh [E|[E|[]]]; injection E as <-;
      repeat constructor; simpl; intuition discriminate.
Defined.

(** ** Chartsheets *)

Lemma sheets_loop_worksheets_Ok {L : StrLower} w wbf wbd names :
  stable w wbf wbd ->
  (forall m, In m names ->
     (exists sh, find_sheet m wbf = Some sh) /\
     (exists sd, find_sheet m wbd = Some sd)) ->
  forall st, exists st',
    for_each names (fun n (_ : unit) => analyze_sheet w wbf n) tt st = (Ok tt, st').
Proof.
  intros Hs. induction names as [|n names IH]; intros Hall st.
  - simpl. unfold ret. eauto.
  - cbn [for_each]. unfold bind. rewrite analyze_sheet_eq.
    destruct (Hall n (or_introl eq_refl)) as [[sh ->] [sd Hsd]].
    rewrite scan_rows_concat.
    match goal with
    | |- context [for_each ?cs (scan_cell w n) ?d ?s] =>
        destruct (scan_stable_Ok wbf wbd w n sd cs Hs Hsd d s) as (d' & s' & ->)
    end.
    apply IH. intros m Hm. apply Hall. now right.
Qed.

(** X12.  A chartsheet stops the run.  For a file that stays readable and
    unmodified: when the sheets listed before a chartsheet are worksheets
    (in both views), the run prints their sections and the header of the
    chartsheet, then fails with [AttributeError] at [sheet.iter_rows()];
    the sheets after it are never scanned and nothing is closed. *)
Theorem chartsheet_stops_run {L : StrLower} w wbf wbd done n rest c :
  stable w wbf wbd ->
  sheetnames wbf = (done ++ n :: rest)%list ->
  (forall m, In m done ->
     (exists sh, find_sheet m wbf = Some sh) /\
     (exists sd, find_sheet m wbd = Some sd)) ->
  lookup_sheet n wbf = Some (Chartsheet c) ->
  exists st secs,
    run w = (Raise AttributeError, st) /\
    Forall2 (section_of w wbf) done secs /\
    stdout st =
      (PSheets (sheetnames wbf) :: separator
       :: List.concat secs
       ++ [PText ("SHEET: " ++ n); PText (str_mul "-" 30)])%list /\
    closed st = [].
Proof.
  intros Hst Hnames Hdone Hchart.
  unfold run. rewrite script_eq. simpl loads.
  destruct (Hst 0%nat) as [-> _].
  match goal with
  | |- context [for_each (sheetnames wbf) ?b tt ?s] =>
      replace (for_each (sheetnames wbf) b tt s)
        with (for_each (done ++ n :: rest)%list b tt s) by (now rewrite Hnames)
  end.
  rewrite for_each_app. unfold bind at 1.
  match goal with
  | |- context [for_each done ?b tt ?s] =>
      destruct (sheets_loop_worksheets_Ok w wbf wbd done Hst Hdone s)
        as [st1 Hloop]
  end.
  rewrite Hloop.
  pose proof (sheets_loop_extends w wbf done _ _ _ Hloop) as (_ & Hc & _).
  apply sheets_loop_Ok in Hloop as (secs & Hsecs & Hout).
  cbn [for_each]. unfold bind at 1. rewrite analyze_sheet_eq.
  rewrite lookup_sheet_eq in Hchart.
  destruct (find_sheet n wbf) as [sh|]; [discriminate|].
  destruct (find_chart n wbf) as [c'|]; [|discriminate].
  eexists. exists secs. split; [reflexivity|]. split; [exact Hsecs|].
  split.
  - unfold emit at 1. cbn [stdout]. rewrite Hout. simpl.
    rewrite <- ?app_assoc. reflexivity.
  - simpl. rewrite Hc. reflexivity.
Qed.

Lemma chartsheet_stops_run_witness :
  exists st secs,
    run Samples.charted = (Raise AttributeError, st) /\
    Forall2 (section_of Samples.charted Samples.charted_book) ["Notes"] secs /\
    stdout st =
      (PSheets (sheetnames Samples.charted_book) :: separator
       :: List.concat secs
       ++ [PText ("SHEET: " ++ "Chart1"); PText (str_mul "-" 30)])%list /\
    closed st = [].
Proof.
  apply (chartsheet_stops_run Samples.charted Samples.charted_book
           Samples.charted_book_data ["Notes"] "Chart1" ["Sheet1"] "Chart1").
  - intros k. split; reflexivity.
  - reflexivity.
  - intros m [<-|[]]. split; eexists; reflexivity.
  - reflexivity.
Defined.
